(** * extract.py: the bottleneck feature-extraction job

    A shallow embedding of the script written by the feature-extraction
    notebook ([get_batch], [load_images], [create_bottleneck_features],
    the calls of the HDF5 library) and the properties its specification
    states about it. *)

From stdpp Require Import gmap strings list fin_maps.
From Stdlib Require Import ZArith Strings.Byte Strings.Ascii.

Open Scope string_scope.
Open Scope list_scope.
Open Scope nat_scope.
Open Scope stdpp_scope.

(** ** Exceptions and results *)

(** The Python exceptions the script can raise.  None of them is caught
    anywhere in the script. *)
Inductive exn : Type :=
  | OSError_listdir (path : string)   (* os.listdir on a missing directory *)
  | OSError_open (path : string)      (* open(path, 'rb') on an unreadable file *)
  | KeyError (key : string)           (* label_map[folder] *)
  | ValueError_unpack                 (* image_paths, labels = zip() *)
  | ValueError_range                  (* range() arg 3 must not be zero *)
  | ValueError_reshape                (* np.reshape to (n, 2048) *)
  | ExtractorError                    (* sess.run failed *)
  | OSError_h5 (path : string)        (* h5py.File(path, "w") cannot create it *)
  | TypeError_dataset.                (* create_dataset refuses the array *)

Inductive result (A : Type) : Type :=
  | Ok (a : A)
  | Raise (e : exn).
Arguments Ok {A} a.
Arguments Raise {A} e.

(** ** get_batch *)

(** [range(0, n, step)]: CPython computes the number of items as
    [(n + step - 1) // step] for a positive step, nothing for a negative
    step (the start 0 is not above the stop), and raises on step zero. *)
Definition py_range0 (n : nat) (step : Z) : result (list nat) :=
  if decide (step = 0%Z) then Raise ValueError_range
  else if decide (step < 0)%Z then Ok []
  else let s := Z.to_nat step in
       Ok ((λ k, k * s) <$> seq 0 ((n + s - 1) `div` s)).

(** [l[i:j]] for indices [0 <= i <= j]. *)
Definition slice {A} (l : list A) (i j : nat) : list A :=
  take (j - i) (drop i l).

(** def get_batch(pathnames, batchsize=64):
        for i in range(0, len(pathnames), batchsize):
            yield pathnames[i:i+batchsize]
    The generator is modelled by the list of the batches it yields. *)
Definition get_batch {A} (pathnames : list A) (batchsize : Z)
  : result (list (list A)) :=
  match py_range0 (length pathnames) batchsize with
  | Raise e => Raise e
  | Ok starts =>
      Ok ((λ i, slice pathnames i (i + Z.to_nat batchsize)) <$> starts)
  end.

Definition default_batchsize : Z := 64.


(** The k-th run of [s] consecutive items of [l]: [l[k*s : k*s + s]]. *)
Definition chunk_at {A} (l : list A) (s k : nat) : list A :=
  slice l (k * s) (k * s + s).

(** The number of batches of size [s] that [l] is cut into. *)
Definition batch_count {A} (l : list A) (s : nat) : nat :=
  (length l + s - 1) `div` s.

(** ** Paths *)

Definition sep : ascii := "/"%char.

Definition starts_with_sep (s : string) : bool :=
  match s with
  | String c _ => bool_decide (c = sep)
  | EmptyString => false
  end.

Fixpoint ends_with_sep (s : string) : bool :=
  match s with
  | EmptyString => false
  | String c EmptyString => bool_decide (c = sep)
  | String _ r => ends_with_sep r
  end.

(** A path made ready for a name to be appended. *)
Definition as_dir (s : string) : string :=
  if bool_decide (s = "") || ends_with_sep s then s else s +:+ "/".

(** One round of the loop of posixpath.join: an absolute component
    restarts the path, a separator is added unless the path is empty or
    already ends with one. *)
Definition join_step (path b : string) : string :=
  if starts_with_sep b then b
  else if bool_decide (path = "") || ends_with_sep path then path +:+ b
  else path +:+ "/" +:+ b.

(** os.path.join(a, *p) *)
Definition path_join (a : string) (p : list string) : string :=
  foldl join_step a p.

(** posixpath.split, before the head is stripped: the head keeps its
    trailing separator. *)
Fixpoint split_raw (p : string) : string * string :=
  match p with
  | EmptyString => ("", "")
  | String c r =>
      let '(h, t) := split_raw r in
      match h with
      | EmptyString =>
          if bool_decide (c = sep) then (String c "", r) else ("", String c r)
      | _ => (String c h, t)
      end
  end.

(** str.rstrip('/') *)
Fixpoint rstrip_sep (s : string) : string :=
  match s with
  | EmptyString => ""
  | String c r =>
      match rstrip_sep r with
      | EmptyString => if bool_decide (c = sep) then "" else String c ""
      | r' => String c r'
      end
  end.

(** os.path.basename and os.path.dirname; a head made only of separators
    is kept as it is. *)
Definition basename (p : string) : string := (split_raw p).2.

Definition dirname (p : string) : string :=
  let head := (split_raw p).1 in
  match rstrip_sep head with
  | EmptyString => head
  | stripped => stripped
  end.

(** A name as a directory listing gives it: not empty, no separator. *)
Fixpoint no_sep (s : string) : bool :=
  match s with
  | EmptyString => true
  | String c r => negb (bool_decide (c = sep)) && no_sep r
  end.

Definition is_file_name (s : string) : bool :=
  negb (bool_decide (s = "")) && no_sep s.

(** The name of the directory a file lies in. *)
Definition parent_name (p : string) : string := basename (dirname p).

(** ** The label vocabulary *)

(** label_map = {"Barren": 0, "Cultivated": 1, "Developed": 2,
                 "Forest": 3, "Herbaceous": 4, "Shrub": 5}
    A dict keeps its insertion order, which [list(label_map.keys())]
    observes, so it is an association list. *)
Definition label_map : list (string * nat) :=
  [("Barren", 0); ("Cultivated", 1); ("Developed", 2);
   ("Forest", 3); ("Herbaceous", 4); ("Shrub", 5)].

(** label_map[key] *)
Fixpoint dict_get (d : list (string * nat)) (key : string) : result nat :=
  match d with
  | [] => Raise (KeyError key)
  | (k, v) :: d' => if bool_decide (k = key) then Ok v else dict_get d' key
  end.

(** folders = list(label_map.keys()) *)
Definition folders : list string := label_map.*1.

(** image_paths, labels = zip( *labeled_image_list ): [zip] of no
    arguments yields nothing, and unpacking nothing into two names
    raises; of [n > 0] pairs it yields the two columns. *)
Definition zip_star_unpack (l : list (string * nat))
  : result (list string * list nat) :=
  match l with
  | [] => Raise ValueError_unpack
  | _ => Ok (l.*1, l.*2)
  end.

(** ** random.shuffle *)

Section shuffle.
Context {A : Type}.
(** [randbelow n] is the draw the generator makes when asked for a
    number below [n]; it is reduced modulo [n], so that any function
    stands for a run of the generator. *)
Variable randbelow : nat → nat.

(** x[i], x[j] = x[j], x[i] *)
Definition swap (i j : nat) (x : list A) : list A :=
  match x !! i, x !! j with
  | Some a, Some b => <[j:=a]> (<[i:=b]> x)
  | _, _ => x
  end.

(** for i in reversed(range(1, len(x))):
        j = randbelow(i + 1)
        x[i], x[j] = x[j], x[i] *)
Fixpoint shuffle_from (i : nat) (x : list A) : list A :=
  match i with
  | 0 => x
  | S i' => shuffle_from i' (swap i (randbelow (S i) `mod` S i) x)
  end.

Definition shuffle (x : list A) : list A := shuffle_from (length x - 1) x.
End shuffle.

(** ** np.reshape(result[0], (len(result[0]), 2048))

    The array [result[0]] is modelled by the list of its items along the
    first axis, each flattened.  Reshaping succeeds when the number of
    elements is [n * 2048], and row [k] is then the k-th run of 2048
    elements. *)
Definition feature_dim : nat := 2048.

Definition np_reshape_rows {F} (items : list (list F)) : result (list (list F)) :=
  let n := length items in
  let flat := concat items in
  if bool_decide (length flat = n * feature_dim)
  then Ok (chunk_at flat feature_dim <$> seq 0 n)
  else Raise ValueError_reshape.

(** ** The command-line flags *)

Record flags : Type := {
  batch_size : Z;
  input_data_dir : string;
  output_data_dir : string;
  file_name : string
}.

(** tf.app.flags.DEFINE_integer('batch_size', 64, ...) and the three
    DEFINE_string defaults. *)
Definition default_flags : flags := {|
  batch_size := 64;
  input_data_dir := "aerialtiny";
  output_data_dir := "bottleneck_features";
  file_name := "aerial_bottleneck_resnet50.h5"
|}.

Definition with_batch_size (b : Z) (FLAGS : flags) : flags := {|
  batch_size := b;
  input_data_dir := input_data_dir FLAGS;
  output_data_dir := output_data_dir FLAGS;
  file_name := file_name FLAGS
|}.

(** ** The world the job runs in *)

(** The content of the written HDF5 file: its two datasets. *)
Record artifact (F : Type) : Type := {
  features : list (list F);
  labels : list nat
}.
Arguments features {F} _.
Arguments labels {F} _.

(** Directories with their listings in the order os.listdir returns
    them, readable files with their bytes, the datasets of the complete
    HDF5 files, and the batches fed to the session, oldest first.  Two
    facts of the HDF5 library belong to the world: the bytes of a file
    with given datasets ([None]: a file just created, without datasets)
    and whether create_dataset takes an array of features. *)
Record world (F : Type) : Type := {
  dirs : gmap string (list string);
  files : gmap string (list byte);
  h5_files : gmap string (artifact F);
  h5_encode : option (artifact F) → list byte;
  h5_storable : list (list F) → bool;
  sess_feeds : list (list (list byte))
}.
Arguments dirs {F} _.
Arguments files {F} _.
Arguments h5_files {F} _.
Arguments h5_encode {F} _.
Arguments h5_storable {F} _.
Arguments sess_feeds {F} _.

(** The world after the session was fed [fed], one batch after another. *)
Definition add_feeds {F} (fed : list (list (list byte))) (w : world F) : world F :=
  {| dirs := dirs w; files := files w; h5_files := h5_files w;
     h5_encode := h5_encode w; h5_storable := h5_storable w;
     sess_feeds := sess_feeds w ++ fed |}.

(** The listings after the file at [path] was created: its name is in
    the listing of its directory. *)
Definition list_file (path : string) (ds : gmap string (list string))
  : gmap string (list string) :=
  match ds !! dirname path with
  | Some names =>
      if bool_decide (basename path ∈ names) then ds
      else <[dirname path := names ++ [basename path]]> ds
  | None => ds
  end.

(** The world after [output_file] was created or emptied by
    [h5py.File(output_file, "w")]: a file without datasets. *)
Definition truncate_h5 {F} (output_file : string) (w : world F) : world F :=
  {| dirs := list_file output_file (dirs w);
     files := <[output_file := h5_encode w None]> (files w);
     h5_files := delete output_file (h5_files w);
     h5_encode := h5_encode w; h5_storable := h5_storable w;
     sess_feeds := sess_feeds w |}.

(** The world after [output_file] was written with its two datasets,
    replacing what was there. *)
Definition add_h5 {F} (output_file : string) (a : artifact F) (w : world F)
  : world F :=
  {| dirs := list_file output_file (dirs w);
     files := <[output_file := h5_encode w (Some a)]> (files w);
     h5_files := <[output_file := a]> (h5_files w);
     h5_encode := h5_encode w; h5_storable := h5_storable w;
     sess_feeds := sess_feeds w |}.

(** Whether [h5py.File(path, "w")] can create the file: the path names
    a file, is not a directory, and lies in the current directory or in
    a directory that is there. *)
Definition h5_can_open {F} (w : world F) (path : string) : bool :=
  negb (bool_decide (basename path = "")) &&
  negb (bool_decide (is_Some (dirs w !! path))) &&
  (bool_decide (dirname path = "") ||
   bool_decide (is_Some (dirs w !! dirname path))).

(** ** The job *)

Section job.
Context {F : Type}.
(** The frozen featurizer graph run by [sess.run]: [None] when it
    fails. *)
Variable sess_run : list (list byte) → option (list (list F)).
Variable randbelow : nat → nat.

(** Computations that read and change the world and may raise; the
    changes made before an exception stay. *)
Definition M (A : Type) : Type := world F → result A * world F.

Definition ret {A} (a : A) : M A := λ w, (Ok a, w).

Definition bind {A B} (m : M A) (k : A → M B) : M B := λ w,
  match m w with
  | (Ok a, w') => k a w'
  | (Raise e, w') => (Raise e, w')
  end.

Definition lift {A} (r : result A) : M A := λ w, (r, w).

Notation "x <~ m ;; k" := (bind m (λ x, k))
  (at level 100, m at next level, right associativity).

(** for x in xs: acc = body(acc, x) *)
Fixpoint for_ {A S} (xs : list A) (body : S → A → M S) (acc : S) : M S :=
  match xs with
  | [] => ret acc
  | x :: xs' => acc' <~ body acc x ;; for_ xs' body acc'
  end.

(** os.listdir(path) *)
Definition listdir (path : string) : M (list string) := λ w,
  match dirs w !! path with
  | Some names => (Ok names, w)
  | None => (Raise (OSError_listdir path), w)
  end.

(** with open(path, 'rb') as f: f.read() *)
Definition open_read (path : string) : M (list byte) := λ w,
  match files w !! path with
  | Some data => (Ok data, w)
  | None => (Raise (OSError_open path), w)
  end.

(** sess.run([features], feed_dict={in_images: image_batch})[0] *)
Definition sess_run_features (image_batch : list (list byte))
  : M (list (list F)) := λ w,
  match sess_run image_batch with
  | Some items => (Ok items, add_feeds [image_batch] w)
  | None => (Raise ExtractorError, add_feeds [image_batch] w)
  end.

(** with h5py.File(output_file, "w") as hfile:
        hfile.create_dataset('features', data=bottleneck_features)
        hfile.create_dataset('labels', data=labels)
    Opening raises when the file cannot be created and leaves the world
    as it is; once opened the file is there, empty, and stays so when
    create_dataset refuses the features. *)
Definition h5_write (output_file : string) (a : artifact F) : M unit := λ w,
  if h5_can_open w output_file then
    if h5_storable w (features a) then (Ok (), add_h5 output_file a w)
    else (Raise TypeError_dataset, truncate_h5 output_file w)
  else (Raise (OSError_h5 output_file), w).

(** def load_images(batch):
        images = []
        for path in batch:
            with open(path, 'rb') as f:
                images.append(f.read())
        return images *)
Definition load_images (batch : list string) : M (list (list byte)) :=
  for_ batch (λ images path, data <~ open_read path ;; ret (images ++ [data])) [].

(** [(os.path.join(img_dir, folder, image), label_map[folder])
     for folder in folders
     for image in os.listdir(os.path.join(img_dir, folder))] *)
Definition list_labeled_images (img_dir : string) : M (list (string * nat)) :=
  for_ folders (λ acc folder,
    images <~ listdir (path_join img_dir [folder]) ;;
    for_ images (λ acc' image,
      label <~ lift (dict_get label_map folder) ;;
      ret (acc' ++ [(path_join img_dir [folder; image], label)])) acc) [].

(** The body of the loop over the batches. *)
Definition featurize_batch (bottleneck_features : list (list F))
    (paths : list string) : M (list (list F)) :=
  image_batch <~ load_images paths ;;
  result0 <~ sess_run_features image_batch ;;
  rows <~ lift (np_reshape_rows result0) ;;
  ret (bottleneck_features ++ rows).

Definition output_path (FLAGS : flags) : string :=
  path_join (output_data_dir FLAGS) [file_name FLAGS].

(** def create_bottleneck_features(): the batches come from
    [get_batch(image_paths)], with no second argument.  Building the
    featurizer graph between the unpacking and the loop touches neither
    the images nor the output and is taken to succeed; printing is left
    out. *)
Definition create_bottleneck_features (FLAGS : flags) : M unit :=
  let img_dir := input_data_dir FLAGS in
  labeled_image_list <~ list_labeled_images img_dir ;;
  let labeled_image_list := shuffle randbelow labeled_image_list in
  unpacked <~ lift (zip_star_unpack labeled_image_list) ;;
  let '(image_paths, labels) := unpacked in
  batches <~ lift (get_batch image_paths default_batchsize) ;;
  bottleneck_features <~ for_ batches featurize_batch [] ;;
  h5_write (output_path FLAGS)
    {| features := bottleneck_features; labels := labels |}.

End job.

(** ** Inputs *)

(** The listing of a category directory, empty when it is missing. *)
Definition category_images {F} (w : world F) (img_dir folder : string)
  : list string :=
  default [] (dirs w !! path_join img_dir [folder]).

(** The pairs the job should find, in directory order. *)
Definition expected_entries {F} (w : world F) (img_dir : string)
  : list (string * nat) :=
  concat ((λ '(folder, label),
            (λ image, (path_join img_dir [folder; image], label))
              <$> category_images w img_dir folder) <$> label_map).

Definition total_image_count {F} (w : world F) (img_dir : string) : nat :=
  sum_list ((λ folder, length (category_images w img_dir folder)) <$> folders).

Definition dirs_present {F} (w : world F) (img_dir : string) : bool :=
  forallb (λ folder, bool_decide (is_Some (dirs w !! path_join img_dir [folder])))
    folders.

Definition files_readable {F} (w : world F) (img_dir : string) : bool :=
  forallb (λ folder,
    forallb (λ image,
      bool_decide (is_Some (files w !! path_join img_dir [folder; image])))
      (category_images w img_dir folder)) folders.

(** The first category directory that is missing. *)
Definition first_missing {F} (w : world F) (img_dir : string) : option string :=
  find (λ path, bool_decide (dirs w !! path = None))
    ((λ folder, path_join img_dir [folder]) <$> folders).

(** The bytes of the files at [paths], and the first of them that cannot
    be read. *)
Definition read_all {F} (w : world F) (paths : list string) : list (list byte) :=
  (λ path, default [] (files w !! path)) <$> paths.

Definition first_unreadable {F} (w : world F) (paths : list string)
  : option string :=
  find (λ path, bool_decide (files w !! path = None)) paths.

Definition all_readable {F} (w : world F) (paths : list string) : Prop :=
  Forall (λ path, is_Some (files w !! path)) paths.

(** The six category directories are there and every listed file can be
    read. *)
Definition valid_input {F} (w : world F) (img_dir : string) : bool :=
  dirs_present w img_dir && files_readable w img_dir.

(** The featurizer returns one 2048-vector per image. *)
Definition extractor_ok {F} (sess_run : list (list byte) → option (list (list F)))
  : Prop :=
  ∀ imgs, ∃ rows, sess_run imgs = Some rows ∧ length rows = length imgs ∧
    Forall (λ r, length r = feature_dim) rows.

(** The featurizer returns 2048-vectors, however many. *)
Definition extractor_rows_ok {F}
    (sess_run : list (list byte) → option (list (list F))) : Prop :=
  ∀ imgs, ∃ rows, sess_run imgs = Some rows ∧
                  Forall (λ r, length r = feature_dim) rows.

(** The featurizer maps each image on its own, by [φ]. *)
Definition extractor_pointwise {F}
    (sess_run : list (list byte) → option (list (list F)))
    (φ : list byte → list F) : Prop :=
  (∀ imgs, sess_run imgs = Some (φ <$> imgs)) ∧
  (∀ img, length (φ img) = feature_dim).

(** ** Example inputs *)

Definition mk_world {F} (ds : list (string * list string))
    (fs : list (string * list byte)) : world F :=
  {| dirs := list_to_map ds; files := list_to_map fs; h5_files := ∅;
     h5_encode := λ _, []; h5_storable := λ _, true; sess_feeds := [] |}.

(** A featurizer for the examples: 2048 copies of the image's size. *)
Definition demo_features (img : list byte) : list Z :=
  replicate feature_dim (Z.of_nat (length img)).

Definition demo_sess_run (imgs : list (list byte)) : option (list (list Z)) :=
  Some (demo_features <$> imgs).

(** A run of the random generator for the examples. *)
Definition demo_randbelow (n : nat) : nat := n `div` 2.

Definition barren3 : list string := ["b0.png"; "b1.png"; "b2.png"].
Definition forest5 : list string :=
  ["f0.png"; "f1.png"; "f2.png"; "f3.png"; "f4.png"].

Definition demo_files : list (string * list byte) :=
  [("aerialtiny/Barren/b0.png", [x01]);
   ("aerialtiny/Barren/b1.png", [x01; x02]);
   ("aerialtiny/Barren/b2.png", [x01; x02; x03]);
   ("aerialtiny/Forest/f0.png", [x0a]);
   ("aerialtiny/Forest/f1.png", [x0a; x0b]);
   ("aerialtiny/Forest/f2.png", [x0a; x0b; x0c]);
   ("aerialtiny/Forest/f3.png", [x0a; x0b; x0c; x0d]);
   ("aerialtiny/Forest/f4.png", [x0a; x0b; x0c; x0d; x0e])].

(** Six category directories, two of them with 3 and 5 images, and the
    output directory of the default flags. *)
Definition world_3_5 : world Z :=
  mk_world [("aerialtiny/Barren", barren3); ("aerialtiny/Cultivated", []);
            ("aerialtiny/Developed", []); ("aerialtiny/Forest", forest5);
            ("aerialtiny/Herbaceous", []); ("aerialtiny/Shrub", []);
            ("bottleneck_features", [])]
           demo_files.

(** The same input without the output directory. *)
Definition world_3_5_no_output_dir : world Z :=
  mk_world [("aerialtiny/Barren", barren3); ("aerialtiny/Cultivated", []);
            ("aerialtiny/Developed", []); ("aerialtiny/Forest", forest5);
            ("aerialtiny/Herbaceous", []); ("aerialtiny/Shrub", [])]
           demo_files.

(** Only two category directories, with 3 and 5 images. *)
Definition world_two_dirs : world Z :=
  mk_world [("aerialtiny/Barren", barren3); ("aerialtiny/Forest", forest5)]
           demo_files.

(** Six category directories, all of them empty. *)
Definition world_all_empty : world Z :=
  mk_world [("aerialtiny/Barren", []); ("aerialtiny/Cultivated", []);
            ("aerialtiny/Developed", []); ("aerialtiny/Forest", []);
            ("aerialtiny/Herbaceous", []); ("aerialtiny/Shrub", [])]
           [].

(** Six category directories, one listed file that cannot be read. *)
Definition world_unreadable : world Z :=
  mk_world [("aerialtiny/Barren", barren3); ("aerialtiny/Cultivated", []);
            ("aerialtiny/Developed", []); ("aerialtiny/Forest", forest5);
            ("aerialtiny/Herbaceous", []); ("aerialtiny/Shrub", ["gone.png"])]
           demo_files.

(** Another run of the random generator: every draw is 0. *)
Definition zero_randbelow (n : nat) : nat := 0.

(** A featurizer that loses the first image of every batch. *)
Definition lossy_sess_run (imgs : list (list byte)) : option (list (list Z)) :=
  Some (demo_features <$> tail imgs).

(** ** Batching lemmas *)

Section batching.
Context {A : Type}.
Implicit Types (l : list A) (s n k : nat).

Lemma chunk_at_take_drop l s k : chunk_at l s k = take s (drop (k * s) l).
Proof. unfold chunk_at, slice. f_equal. lia. Qed.

Lemma chunk_at_S l s k : chunk_at l s (S k) = chunk_at (drop s l) s k.
Proof.
  rewrite !chunk_at_take_drop, drop_drop. do 2 f_equal.
Qed.

Lemma chunks_concat s n : ∀ l,
  length l ≤ n * s → concat (chunk_at l s <$> seq 0 n) = l.
Proof.
  induction n as [|n IH]; intros l Hlen.
  - destruct l; simpl in *; [done | lia].
  - change (seq 0 (S n)) with (0 :: seq 1 n).
    rewrite <- fmap_S_seq, fmap_cons, <- list_fmap_compose. simpl concat.
    rewrite (list_fmap_ext (chunk_at l s ∘ S) (chunk_at (drop s l) s) (seq 0 n))
      by (intros; simpl; apply chunk_at_S).
    rewrite IH by (rewrite length_drop; lia).
    rewrite chunk_at_take_drop. simpl. rewrite drop_0. apply take_drop.
Qed.

Lemma ceil_div_cover n s : 0 < s → n ≤ (n + s - 1) `div` s * s.
Proof.
  intros Hs.
  pose proof (Nat.div_mod (n + s - 1) s ltac:(lia)) as Hdm.
  pose proof (Nat.mod_upper_bound (n + s - 1) s ltac:(lia)) as Hm.
  nia.
Qed.

Lemma ceil_div_tight n s : 0 < s → 0 < n → ((n + s - 1) `div` s - 1) * s < n.
Proof.
  intros Hs Hn.
  pose proof (Nat.div_mod (n + s - 1) s ltac:(lia)) as Hdm.
  pose proof (Nat.mod_upper_bound (n + s - 1) s ltac:(lia)) as Hm.
  nia.
Qed.

Lemma get_batch_pos l (b : Z) :
  (0 < b)%Z →
  get_batch l b =
    Ok (chunk_at l (Z.to_nat b) <$> seq 0 ((length l + Z.to_nat b - 1) `div` Z.to_nat b)).
Proof.
  intros Hb. unfold get_batch, py_range0.
  destruct (decide (b = 0%Z)) as [->|_]; [lia|].
  destruct (decide (b < 0)%Z) as [?|_]; [lia|].
  f_equal. rewrite <- list_fmap_compose. done.
Qed.
End batching.


Section batching_facts.
Context {A : Type}.
Implicit Types (l : list A) (s n k : nat).

Lemma lookup_chunks l s n k batch :
  (chunk_at l s <$> seq 0 n) !! k = Some batch ↔
  k < n ∧ batch = take s (drop (k * s) l).
Proof.
  rewrite list_lookup_fmap, fmap_Some. split.
  - intros (k' & Hk & ->). apply lookup_seq in Hk as [-> ?].
    split; [done | apply chunk_at_take_drop].
  - intros [Hk ->]. exists k. split; [by apply lookup_seq|].
    symmetry. apply chunk_at_take_drop.
Qed.

Lemma chunk_length l s k : length (take s (drop (k * s) l)) = s `min` (length l - k * s).
Proof. by rewrite length_take, length_drop. Qed.

Lemma chunk_lookup l s k j :
  j < s → take s (drop (k * s) l) !! j = l !! (k * s + j).
Proof. intros Hj. by rewrite lookup_take_lt, lookup_drop. Qed.

Lemma batch_count_pos l s : 0 < s → 0 < batch_count l s → 0 < length l.
Proof.
  unfold batch_count. intros Hs Hn.
  destruct (length l) as [|m]; [|lia].
  rewrite Nat.div_small in Hn; lia.
Qed.

Lemma batch_count_single l s :
  0 < length l ≤ s → batch_count l s = 1.
Proof.
  intros [Hpos Hle]. unfold batch_count.
  replace (length l + s - 1) with (1 * s + (length l - 1)) by lia.
  rewrite Nat.div_add_l by lia. rewrite Nat.div_small; lia.
Qed.
End batching_facts.

(** C4: for a positive batch size, get_batch yields contiguous slices
    whose concatenation in yield order is the input list; the batch with
    number [k] is the slice starting at [k * batchsize], no batch is empty
    or longer than the batch size, every batch but the last has exactly
    the batch size, and the positions of the input and the positions
    inside the batches correspond one to one: input position [i] is
    offset [i mod batchsize] of batch [i / batchsize], and nothing else
    is in a batch. *)
Theorem get_batch_partition {A} (pathnames : list A) (batchsize : Z) :
  (0 < batchsize)%Z →
  let b := Z.to_nat batchsize in
  ∃ batches,
    get_batch pathnames batchsize = Ok batches ∧
    concat batches = pathnames ∧
    (∀ k batch, batches !! k = Some batch →
       batch = slice pathnames (k * b) (k * b + b) ∧
       0 < length batch ≤ b ∧
       (S k < length batches → length batch = b)) ∧
    (∀ i x, pathnames !! i = Some x →
       ∃ batch, batches !! (i `div` b) = Some batch ∧
                batch !! (i `mod` b) = Some x) ∧
    (∀ k j batch x, batches !! k = Some batch → batch !! j = Some x →
       j < b ∧ pathnames !! (k * b + j) = Some x).
Proof.
  intros Hb b. assert (Hs : 0 < b) by (unfold b; lia).
  eexists. split; [by apply get_batch_pos|]. fold b.
  fold (batch_count pathnames b).
  pose proof (ceil_div_cover (length pathnames) b Hs) as Hcover.
  fold (batch_count pathnames b) in Hcover.
  split; [by apply chunks_concat|].
  split; [|split].
  - intros k batch [Hk ->]%lookup_chunks.
    assert (0 < length pathnames) by (apply (batch_count_pos _ b); lia).
    pose proof (ceil_div_tight (length pathnames) b Hs ltac:(done)) as Htight.
    fold (batch_count pathnames b) in Htight.
    split; [by rewrite <- chunk_at_take_drop|].
    rewrite chunk_length, length_fmap, length_seq.
    assert (k * b ≤ (batch_count pathnames b - 1) * b) by (apply Nat.mul_le_mono_r; lia).
    split; [lia|]. intros Hlast.
    assert (S k * b ≤ (batch_count pathnames b - 1) * b) by (apply Nat.mul_le_mono_r; lia).
    lia.
  - intros i x Hi. pose proof (lookup_lt_Some _ _ _ Hi) as Hlt.
    exists (take b (drop (i `div` b * b) pathnames)). split.
    + apply lookup_chunks. split; [|done].
      apply Nat.Div0.div_lt_upper_bound. lia.
    + rewrite chunk_lookup by (apply Nat.mod_upper_bound; lia).
      rewrite <- Hi. f_equal. pose proof (Nat.div_mod i b ltac:(lia)). lia.
  - intros k j batch x [Hk ->]%lookup_chunks Hj.
    assert (j < b).
    { apply lookup_lt_Some in Hj. rewrite chunk_length in Hj. lia. }
    split; [done|]. by rewrite chunk_lookup in Hj.
Qed.

(** C8: when the number of images is positive and not larger than the
    batch size, get_batch yields exactly one batch, the whole list. *)
Theorem get_batch_single {A} (pathnames : list A) (batchsize : Z) :
  0 < length pathnames →
  (Z.of_nat (length pathnames) ≤ batchsize)%Z →
  get_batch pathnames batchsize = Ok [pathnames].
Proof.
  intros Hpos Hle. rewrite get_batch_pos by lia.
  fold (batch_count pathnames (Z.to_nat batchsize)).
  rewrite batch_count_single by lia. simpl.
  rewrite chunk_at_take_drop. simpl. rewrite drop_0, take_ge by lia. done.
Qed.

(** ** random.shuffle permutes *)

Section shuffle_facts.
Context {A : Type}.
Variable randbelow : nat → nat.
Implicit Types (x : list A) (i j : nat).

Lemma swap_length i j x : length (swap i j x) = length x.
Proof.
  unfold swap. destruct (x !! i), (x !! j); try done.
  by rewrite !length_insert.
Qed.

Lemma swap_lookup i j x k :
  i < length x → j < length x →
  swap i j x !! k = x !! (if decide (k = i) then j else if decide (k = j) then i else k).
Proof.
  intros Hi Hj. unfold swap.
  destruct (lookup_lt_is_Some_2 x i Hi) as [a Ha].
  destruct (lookup_lt_is_Some_2 x j Hj) as [b Hb].
  rewrite Ha, Hb, !list_lookup_insert, !length_insert.
  repeat case_decide; destruct_and?; simplify_eq;
    first [congruence | exfalso; lia].
Qed.

Lemma swap_Permutation i j x : swap i j x ≡ₚ x.
Proof.
  destruct (decide (i < length x ∧ j < length x)) as [[Hi Hj]|Hout].
  - apply Permutation_inj. split; [apply swap_length|].
    exists (λ k, if decide (k = i) then j else if decide (k = j) then i else k).
    split; [|intros k; by apply swap_lookup].
    intros k1 k2. repeat case_decide; lia.
  - unfold swap.
    destruct (x !! i) eqn:Ei; [|done]. destruct (x !! j) eqn:Ej; [|done].
    apply lookup_lt_Some in Ei, Ej. lia.
Qed.

Lemma shuffle_from_Permutation i x : shuffle_from randbelow i x ≡ₚ x.
Proof.
  revert x. induction i as [|i IH]; intros x; simpl; [done|].
  rewrite IH. apply swap_Permutation.
Qed.

Lemma shuffle_Permutation x : shuffle randbelow x ≡ₚ x.
Proof. apply shuffle_from_Permutation. Qed.

Lemma shuffle_length x : length (shuffle randbelow x) = length x.
Proof. apply Permutation_length, shuffle_Permutation. Qed.

Lemma shuffle_nil x : shuffle randbelow x = [] ↔ x = [].
Proof.
  split; intros Hnil; [|by subst].
  pose proof (shuffle_length x) as Hlen. rewrite Hnil in Hlen.
  by destruct x.
Qed.
End shuffle_facts.

(** ** The steps of the job *)

Section job_facts.
Context {F : Type}.
Variable sess_run : list (list byte) → option (list (list F)).
Variable randbelow : nat → nat.
Implicit Types (w : world F) (FLAGS : flags).

Lemma for_nil {A S} (body : S → A → M S) acc w :
  for_ [] body acc w = (Ok acc, w).
Proof. done. Qed.

Lemma for_cons {A S} x xs (body : S → A → M S) acc w :
  for_ (x :: xs) body acc w =
    match body acc x w with
    | (Ok acc', w') => for_ xs body acc' w'
    | (Raise e, w') => (Raise e, w')
    end.
Proof. done. Qed.

Lemma bind_eq {A B} (m : M A) (k : A → M B) w :
  bind m k w =
    match m w with
    | (Ok a, w') => k a w'
    | (Raise e, w') => (Raise e, w')
    end.
Proof. done. Qed.

Lemma lift_eq {A} (r : result A) w : lift r w = (r, w).
Proof. done. Qed.

Lemma ret_eq {A} (a : A) w : ret a w = (Ok a, w).
Proof. done. Qed.

Lemma add_feeds_nil w : add_feeds [] w = w.
Proof. destruct w. unfold add_feeds. simpl. by rewrite app_nil_r. Qed.

Lemma add_feeds_add_feeds fed1 fed2 w :
  add_feeds fed2 (add_feeds fed1 w) = add_feeds (fed1 ++ fed2) w.
Proof. unfold add_feeds. simpl. by rewrite app_assoc. Qed.

Lemma dict_get_label_map folder label :
  (folder, label) ∈ label_map → dict_get label_map folder = Ok label.
Proof.
  unfold label_map. rewrite !elem_of_cons, elem_of_nil.
  intros H. repeat (destruct H as [H|H]; [by simplify_eq|]). done.
Qed.

(** The inner loop of the comprehension, over the images of a folder. *)
Lemma images_loop img_dir folder label images : ∀ acc w,
  dict_get label_map folder = Ok label →
  for_ images (λ acc' image,
    bind (lift (dict_get label_map folder)) (λ label,
      ret (acc' ++ [(path_join img_dir [folder; image], label)]))) acc w
  = (Ok (acc ++ ((λ image, (path_join img_dir [folder; image], label)) <$> images)), w).
Proof.
  intros acc w ->. revert acc.
  induction images as [|image images IH]; intros acc.
  - by rewrite for_nil, app_nil_r.
  - rewrite for_cons, fmap_cons, bind_eq, lift_eq, ret_eq.
    by rewrite IH, <- app_assoc.
Qed.

(** The outer loop, over any part of the label vocabulary. *)
Lemma folders_loop img_dir w (lm : list (string * nat)) : ∀ acc,
  lm ⊆ label_map →
  for_ lm.*1 (λ acc folder,
    bind (listdir (path_join img_dir [folder])) (λ images,
      for_ images (λ acc' image,
        bind (lift (dict_get label_map folder)) (λ label,
          ret (acc' ++ [(path_join img_dir [folder; image], label)]))) acc)) acc w
  = match find (λ path, bool_decide (dirs w !! path = None))
            ((λ folder, path_join img_dir [folder]) <$> lm.*1) with
    | Some path => (Raise (OSError_listdir path), w)
    | None =>
        (Ok (acc ++ concat ((λ '(folder, label),
                (λ image, (path_join img_dir [folder; image], label))
                  <$> category_images w img_dir folder) <$> lm)), w)
    end.
Proof.
  induction lm as [|[folder label] lm IH]; intros acc Hsub.
  - simpl. by rewrite ret_eq, app_nil_r.
  - rewrite !fmap_cons, for_cons. cbn [find fst concat].
    rewrite bind_eq. unfold listdir at 1. unfold category_images at 1.
    case_bool_decide as Hdir.
    + by rewrite Hdir.
    + destruct (dirs w !! path_join img_dir [folder]) as [images|] eqn:E; [|done].
      rewrite (images_loop _ _ label) by (apply dict_get_label_map, Hsub; left).
      rewrite IH by (intros x Hx; apply Hsub; by right).
      destruct (find _ _); [done|]. cbn [default]. by rewrite app_assoc.
Qed.

Lemma list_labeled_images_spec img_dir w :
  list_labeled_images img_dir w =
    match first_missing w img_dir with
    | Some path => (Raise (OSError_listdir path), w)
    | None => (Ok (expected_entries w img_dir), w)
    end.
Proof.
  unfold list_labeled_images, folders. rewrite folders_loop by done.
  done.
Qed.

(** The loop of load_images. *)
Lemma load_images_loop w batch : ∀ images,
  for_ batch (λ images path,
    bind (open_read path) (λ data, ret (images ++ [data]))) images w
  = match first_unreadable w batch with
    | Some path => (Raise (OSError_open path), w)
    | None => (Ok (images ++ read_all w batch), w)
    end.
Proof.
  unfold first_unreadable, read_all.
  induction batch as [|path batch IH]; intros images.
  - by rewrite for_nil, app_nil_r.
  - rewrite for_cons, fmap_cons. cbn [find].
    rewrite bind_eq. unfold open_read at 1. case_bool_decide as Hfile.
    + by rewrite Hfile.
    + destruct (files w !! path) as [data|] eqn:E; [|done].
      rewrite ret_eq, IH. destruct (find _ _); [done|].
      cbn [default]. by rewrite <- app_assoc.
Qed.

Lemma load_images_spec w batch :
  load_images batch w =
    match first_unreadable w batch with
    | Some path => (Raise (OSError_open path), w)
    | None => (Ok (read_all w batch), w)
    end.
Proof. apply load_images_loop. Qed.

Lemma find_app_or {A} (f : A → bool) (l1 l2 : list A) :
  find f (l1 ++ l2) =
    match find f l1 with Some x => Some x | None => find f l2 end.
Proof. induction l1 as [|x l1 IH]; simpl; [done|]. by destruct (f x). Qed.

(** Reshaping a stack of 2048-vectors gives the vectors back. *)
Lemma chunks_of_concat (s : nat) (items : list (list F)) :
  Forall (λ r, length r = s) items →
  length (concat items) = length items * s ∧
  chunk_at (concat items) s <$> seq 0 (length items) = items.
Proof.
  induction 1 as [|r items Hr _ [IHlen IH]]; [done|].
  cbn [concat length]. split.
  - rewrite length_app, IHlen, Hr. lia.
  - change (seq 0 (S (length items))) with (0 :: seq 1 (length items)).
    rewrite <- fmap_S_seq, fmap_cons, <- list_fmap_compose. f_equal.
    + rewrite chunk_at_take_drop. simpl. rewrite drop_0.
      rewrite take_app_length'; done.
    + etrans; [|exact IH]. apply list_fmap_ext. intros i k _. simpl.
      rewrite chunk_at_S. f_equal. rewrite drop_app_length'; done.
Qed.

Lemma np_reshape_rows_id (items : list (list F)) :
  Forall (λ r, length r = feature_dim) items →
  np_reshape_rows items = Ok items.
Proof.
  intros [Hlen Hrows]%chunks_of_concat. unfold np_reshape_rows.
  rewrite bool_decide_eq_true_2 by done. by rewrite Hrows.
Qed.

(** One round of the loop over the batches. *)
Lemma featurize_batch_eq acc paths w :
  featurize_batch sess_run acc paths w =
    match first_unreadable w paths with
    | Some path => (Raise (OSError_open path), w)
    | None =>
        let fed := add_feeds [read_all w paths] w in
        match sess_run (read_all w paths) with
        | None => (Raise ExtractorError, fed)
        | Some items =>
            match np_reshape_rows items with
            | Ok rows => (Ok (acc ++ rows), fed)
            | Raise e => (Raise e, fed)
            end
        end
    end.
Proof.
  unfold featurize_batch. rewrite bind_eq, load_images_spec.
  destruct (first_unreadable w paths); [done|].
  rewrite bind_eq. unfold sess_run_features.
  destruct (sess_run (read_all w paths)) as [items|]; [|done].
  rewrite bind_eq, lift_eq. by destruct (np_reshape_rows items).
Qed.

(** The loop changes the world only by feeding the session. *)
Lemma featurize_loop_world batches : ∀ acc w,
  ∃ fed, (for_ batches (featurize_batch sess_run) acc w).2 = add_feeds fed w.
Proof.
  induction batches as [|paths batches IH]; intros acc w.
  - exists []. by rewrite for_nil, add_feeds_nil.
  - rewrite for_cons, featurize_batch_eq.
    destruct (first_unreadable w paths);
      [exists []; by rewrite add_feeds_nil|].
    cbn zeta. destruct (sess_run (read_all w paths)) as [items|];
      [|by eexists].
    destruct (np_reshape_rows items) as [rows|]; [|by eexists].
    destruct (IH (acc ++ rows) (add_feeds [read_all w paths] w)) as [fed ->].
    eexists. apply add_feeds_add_feeds.
Qed.

(** A file that cannot be read stops the loop, whatever the
    featurizer does. *)
Lemma featurize_loop_raises batches path : ∀ acc w,
  first_unreadable w (concat batches) = Some path →
  ∃ e, (for_ batches (featurize_batch sess_run) acc w).1 = Raise e.
Proof.
  induction batches as [|paths batches IH]; intros acc w Hbad; [done|].
  rewrite for_cons, featurize_batch_eq.
  cbn [concat] in Hbad. unfold first_unreadable in Hbad.
  rewrite find_app_or in Hbad. fold (first_unreadable w paths) in Hbad.
  destruct (first_unreadable w paths); [by eexists|].
  cbn zeta. destruct (sess_run (read_all w paths)) as [items|];
    [|by eexists].
  destruct (np_reshape_rows items) as [rows|]; [|by eexists].
  by apply IH.
Qed.

(** With a featurizer that does its part, the loop reads every file
    and stops at the first one that cannot be read. *)
Lemma featurize_loop_spec batches :
  extractor_ok sess_run → ∀ acc w,
  match first_unreadable w (concat batches) with
  | Some path =>
      ∃ fed, for_ batches (featurize_batch sess_run) acc w
             = (Raise (OSError_open path), add_feeds fed w)
  | None =>
      for_ batches (featurize_batch sess_run) acc w
      = (Ok (acc ++ concat ((λ paths, default [] (sess_run (read_all w paths)))
                              <$> batches)),
         add_feeds (read_all w <$> batches) w)
  end.
Proof.
  intros Hok. induction batches as [|paths batches IH]; intros acc w.
  - simpl. by rewrite ret_eq, app_nil_r, add_feeds_nil.
  - rewrite for_cons, featurize_batch_eq. cbn [concat].
    unfold first_unreadable. rewrite find_app_or.
    fold (first_unreadable w paths).
    destruct (first_unreadable w paths) as [bad|];
      [exists []; by rewrite add_feeds_nil|].
    cbn zeta. destruct (Hok (read_all w paths)) as (rows & Hrun & _ & Hrows).
    rewrite Hrun, np_reshape_rows_id by done.
    specialize (IH (acc ++ rows) (add_feeds [read_all w paths] w)).
    change (first_unreadable (add_feeds [read_all w paths] w) (concat batches))
      with (first_unreadable w (concat batches)) in IH.
    change (read_all (add_feeds [read_all w paths] w)) with (read_all w) in IH.
    fold (first_unreadable w (concat batches)).
    destruct (first_unreadable w (concat batches)) as [bad|].
    + destruct IH as [fed ->]. eexists. by rewrite add_feeds_add_feeds.
    + rewrite IH, add_feeds_add_feeds, !fmap_cons, Hrun. cbn [concat default].
      by rewrite <- app_assoc.
Qed.

(** *** What is on disk *)

Lemma first_missing_None_gen w img_dir (fs : list string) :
  find (λ path, bool_decide (dirs w !! path = None))
    ((λ folder, path_join img_dir [folder]) <$> fs) = None ↔
  forallb (λ folder, bool_decide (is_Some (dirs w !! path_join img_dir [folder]))) fs
    = true.
Proof.
  induction fs as [|folder fs IH]; [done|].
  rewrite fmap_cons. cbn [find forallb].
  destruct (dirs w !! path_join img_dir [folder]) eqn:E.
  - rewrite bool_decide_eq_false_2 by done.
    rewrite bool_decide_eq_true_2 by done. by rewrite IH.
  - rewrite bool_decide_eq_true_2 by done.
    rewrite bool_decide_eq_false_2 by (by intros []). done.
Qed.

Lemma first_missing_None w img_dir :
  first_missing w img_dir = None ↔ dirs_present w img_dir = true.
Proof. apply first_missing_None_gen. Qed.

Lemma first_missing_Some w img_dir path :
  first_missing w img_dir = Some path →
  dirs w !! path = None ∧
  ∃ folder, folder ∈ folders ∧ path = path_join img_dir [folder].
Proof.
  intros [Hin Hnone]%find_some. apply bool_decide_eq_true_1 in Hnone.
  split; [done|]. apply list_elem_of_In, list_elem_of_fmap in Hin.
  destruct Hin as (folder & -> & ?). by exists folder.
Qed.

Lemma first_missing_cases w img_dir :
  dirs_present w img_dir = false → ∃ path, first_missing w img_dir = Some path.
Proof.
  intros Hno. destruct (first_missing w img_dir) eqn:E; [by eexists|].
  apply first_missing_None in E. congruence.
Qed.

Lemma first_unreadable_None w paths :
  first_unreadable w paths = None ↔ all_readable w paths.
Proof.
  unfold first_unreadable, all_readable.
  induction paths as [|path paths IH]; [by split; [constructor|]|].
  cbn [find]. rewrite Forall_cons, <- IH.
  destruct (files w !! path) eqn:E.
  - rewrite bool_decide_eq_false_2 by done.
    split; [intros ?; split; [by eexists | done] | by intros [_ ?]].
  - rewrite bool_decide_eq_true_2 by done.
    split; [done|]. by intros [[] _].
Qed.

Lemma first_unreadable_Some w paths path :
  first_unreadable w paths = Some path → path ∈ paths ∧ files w !! path = None.
Proof.
  intros [Hin Hnone]%find_some. apply bool_decide_eq_true_1 in Hnone.
  by apply list_elem_of_In in Hin.
Qed.

Lemma expected_paths_gen w img_dir (lm : list (string * nat)) :
  (concat ((λ '(folder, label),
      (λ image, (path_join img_dir [folder; image], label))
        <$> category_images w img_dir folder) <$> lm)).*1
  = concat ((λ folder, (λ image, path_join img_dir [folder; image])
               <$> category_images w img_dir folder) <$> lm.*1).
Proof.
  induction lm as [|[folder label] lm IH]; [done|].
  rewrite !fmap_cons. cbn [concat fst]. rewrite fmap_app, IH. f_equal.
  by rewrite <- list_fmap_compose.
Qed.

Lemma expected_labels_gen w img_dir (lm : list (string * nat)) :
  (concat ((λ '(folder, label),
      (λ image, (path_join img_dir [folder; image], label))
        <$> category_images w img_dir folder) <$> lm)).*2
  = concat ((λ '(folder, label),
      replicate (length (category_images w img_dir folder)) label) <$> lm).
Proof.
  induction lm as [|[folder label] lm IH]; [done|].
  rewrite !fmap_cons. cbn [concat]. rewrite fmap_app, IH. f_equal.
  rewrite <- list_fmap_compose.
  generalize (category_images w img_dir folder) as images.
  induction images as [|image images IHi]; [done|].
  rewrite fmap_cons. cbn [length replicate]. by rewrite IHi.
Qed.

Lemma files_readable_gen w img_dir (fs : list string) :
  forallb (λ folder,
    forallb (λ image,
      bool_decide (is_Some (files w !! path_join img_dir [folder; image])))
      (category_images w img_dir folder)) fs = true ↔
  all_readable w
    (concat ((λ folder, (λ image, path_join img_dir [folder; image])
               <$> category_images w img_dir folder) <$> fs)).
Proof.
  unfold all_readable. induction fs as [|folder fs IH].
  - split; [constructor | done].
  - rewrite fmap_cons. cbn [forallb concat].
    rewrite andb_true_iff, Forall_app, IH, Forall_fmap.
    apply and_iff_compat_r. rewrite <- Is_true_true, forallb_True.
    apply Forall_iff. intros image. simpl. by rewrite bool_decide_spec.
Qed.

Lemma files_readable_all w img_dir :
  files_readable w img_dir = true ↔
  all_readable w (expected_entries w img_dir).*1.
Proof.
  unfold expected_entries. rewrite expected_paths_gen.
  apply files_readable_gen.
Qed.

Lemma expected_length_gen w img_dir (lm : list (string * nat)) :
  length (concat ((λ '(folder, label),
      (λ image, (path_join img_dir [folder; image], label))
        <$> category_images w img_dir folder) <$> lm))
  = sum_list ((λ folder, length (category_images w img_dir folder)) <$> lm.*1).
Proof.
  induction lm as [|[folder label] lm IH]; [done|].
  rewrite !fmap_cons. cbn [concat sum_list sum_list_with fst].
  by rewrite length_app, length_fmap, IH.
Qed.

Lemma expected_length w img_dir :
  length (expected_entries w img_dir) = total_image_count w img_dir.
Proof. apply expected_length_gen. Qed.

(** Where an entry of the list comes from. *)
Lemma expected_entry_origin w img_dir path label :
  (path, label) ∈ expected_entries w img_dir →
  ∃ folder image,
    label_map !! label = Some (folder, label) ∧
    image ∈ category_images w img_dir folder ∧
    path = path_join img_dir [folder; image].
Proof.
  unfold expected_entries. rewrite list_elem_of_In, in_concat.
  intros (group & Hgroup & Hin).
  apply list_elem_of_In, list_elem_of_fmap in Hgroup.
  destruct Hgroup as ([folder label'] & -> & Hlm).
  apply list_elem_of_In, list_elem_of_fmap in Hin.
  destruct Hin as (image & [= -> ->] & Himage).
  exists folder, image. split; [|done].
  unfold label_map in *. rewrite !elem_of_cons, elem_of_nil in Hlm.
  repeat (destruct Hlm as [Hlm|Hlm]; [by simplify_eq|]). done.
Qed.

(** *** The whole job *)

(** The write feeds nothing to the session; when it raises nothing the
    file holds the two datasets. *)
Lemma h5_write_feeds output_file (a : artifact F) w :
  sess_feeds (h5_write output_file a w).2 = sess_feeds w.
Proof.
  unfold h5_write. destruct (h5_can_open w output_file); [|done].
  by destruct (h5_storable w (features a)).
Qed.

Lemma h5_write_Ok output_file (a : artifact F) w :
  (h5_write output_file a w).1 = Ok () →
  h5_files (h5_write output_file a w).2 !! output_file = Some a.
Proof.
  unfold h5_write. destruct (h5_can_open w output_file); [|done].
  destruct (h5_storable w (features a)); [|done].
  intros _. apply lookup_insert_eq.
Qed.

(** A write that raises leaves no datasets at the path, save those of
    a file it could not open. *)
Lemma h5_write_Raise output_file (a : artifact F) w e :
  (h5_write output_file a w).1 = Raise e →
  (e = OSError_h5 output_file ∧ h5_write output_file a w = (Raise e, w)) ∨
  (e = TypeError_dataset ∧
   h5_files (h5_write output_file a w).2 !! output_file = None).
Proof.
  unfold h5_write. destruct (h5_can_open w output_file).
  - destruct (h5_storable w (features a)); [done|].
    intros [= <-]. right. split; [done|]. apply lookup_delete_eq.
  - intros [= <-]. by left.
Qed.

Lemma get_batch_default_ok {A} (l : list A) :
  ∃ batches, get_batch l default_batchsize = Ok batches ∧ concat batches = l.
Proof.
  eexists. split; [by apply get_batch_pos|].
  apply chunks_concat, ceil_div_cover. unfold default_batchsize. lia.
Qed.

Lemma create_bottleneck_features_eq FLAGS w :
  create_bottleneck_features sess_run randbelow FLAGS w =
    match first_missing w (input_data_dir FLAGS) with
    | Some path => (Raise (OSError_listdir path), w)
    | None =>
        match zip_star_unpack
                (shuffle randbelow (expected_entries w (input_data_dir FLAGS))) with
        | Raise e => (Raise e, w)
        | Ok (image_paths, labels) =>
            match get_batch image_paths default_batchsize with
            | Raise e => (Raise e, w)
            | Ok batches =>
                match for_ batches (featurize_batch sess_run) [] w with
                | (Ok bottleneck_features, w') =>
                    h5_write (output_path FLAGS)
                      {| features := bottleneck_features;
                         labels := labels |} w'
                | (Raise e, w') => (Raise e, w')
                end
            end
        end
    end.
Proof.
  unfold create_bottleneck_features. cbn zeta.
  rewrite bind_eq, list_labeled_images_spec.
  destruct (first_missing w (input_data_dir FLAGS)); [done|].
  rewrite bind_eq, lift_eq.
  destruct (zip_star_unpack _) as [[image_paths labels]|]; [|done].
  rewrite bind_eq, lift_eq.
  destruct (get_batch image_paths default_batchsize) as [batches|]; [|done].
  rewrite bind_eq.
  by destruct (for_ batches (featurize_batch sess_run) [] w) as [[]].
Qed.

Lemma zip_star_unpack_cons (l : list (string * nat)) :
  l ≠ [] → zip_star_unpack l = Ok (l.*1, l.*2).
Proof. by destruct l. Qed.

(** The rows the loop collects, when the featurizer does its part. *)
Lemma loop_rows_shape w (batches : list (list string)) :
  extractor_ok sess_run →
  let rows := concat ((λ paths, default [] (sess_run (read_all w paths)))
                        <$> batches) in
  length rows = length (concat batches) ∧
  Forall (λ r, length r = feature_dim) rows.
Proof.
  intros Hok. cbn zeta.
  induction batches as [|paths batches [IHlen IH]]; [done|].
  rewrite fmap_cons. cbn [concat].
  destruct (Hok (read_all w paths)) as (rows & -> & Hlen & Hrows).
  cbn [default from_option id]. rewrite !length_app, Forall_app, Hlen, IHlen.
  unfold read_all. by rewrite length_fmap.
Qed.

Lemma loop_rows_pointwise w φ (batches : list (list string)) :
  extractor_pointwise sess_run φ →
  concat ((λ paths, default [] (sess_run (read_all w paths))) <$> batches)
  = φ <$> read_all w (concat batches).
Proof.
  intros [Hrun _]. induction batches as [|paths batches IH]; [done|].
  rewrite fmap_cons. cbn [concat]. rewrite Hrun, IH. cbn [default from_option id].
  unfold read_all. by rewrite !fmap_app.
Qed.

Lemma extractor_pointwise_ok φ :
  extractor_pointwise sess_run φ → extractor_ok sess_run.
Proof.
  intros [Hrun Hdim] imgs. exists (φ <$> imgs).
  rewrite length_fmap, Forall_fmap. repeat split; [done|].
  apply Forall_forall. intros img _. apply Hdim.
Qed.

Lemma shuffled_paths_readable w img_dir :
  files_readable w img_dir = true →
  all_readable w (shuffle randbelow (expected_entries w img_dir)).*1.
Proof.
  intros Hfiles%files_readable_all. unfold all_readable in *.
  by rewrite shuffle_Permutation.
Qed.

(** A valid input with an image in it is processed to the end. *)
Lemma create_ok FLAGS w :
  valid_input w (input_data_dir FLAGS) = true →
  extractor_ok sess_run →
  0 < total_image_count w (input_data_dir FLAGS) →
  let entries := shuffle randbelow (expected_entries w (input_data_dir FLAGS)) in
  ∃ batches,
    get_batch entries.*1 default_batchsize = Ok batches ∧
    concat batches = entries.*1 ∧
    create_bottleneck_features sess_run randbelow FLAGS w =
      h5_write (output_path FLAGS)
        {| features := concat ((λ paths, default [] (sess_run (read_all w paths)))
                                 <$> batches);
           labels := entries.*2 |}
        (add_feeds (read_all w <$> batches) w).
Proof.
  intros [Hdirs Hfiles]%andb_true_iff Hok Hpos entries.
  destruct (get_batch_default_ok entries.*1) as (batches & Hget & Hcat).
  exists batches. split; [done|]. split; [done|].
  rewrite create_bottleneck_features_eq.
  apply first_missing_None in Hdirs. rewrite Hdirs.
  fold entries. rewrite zip_star_unpack_cons, Hget.
  - pose proof (featurize_loop_spec batches Hok [] w) as Hloop.
    rewrite Hcat in Hloop.
    pose proof (shuffled_paths_readable w _ Hfiles) as Hread.
    apply first_unreadable_None in Hread. fold entries in Hread.
    rewrite Hread in Hloop. by rewrite Hloop.
  - unfold entries. rewrite shuffle_nil. intros Hnil.
    rewrite <- expected_length, Hnil in Hpos. simpl in Hpos. lia.
Qed.

(** Without any image the unpacking raises, and nothing has happened
    by then. *)
Lemma create_no_images FLAGS w :
  dirs_present w (input_data_dir FLAGS) = true →
  total_image_count w (input_data_dir FLAGS) = 0 →
  create_bottleneck_features sess_run randbelow FLAGS w
  = (Raise ValueError_unpack, w).
Proof.
  intros Hdirs%first_missing_None Hzero.
  rewrite create_bottleneck_features_eq, Hdirs.
  rewrite <- expected_length in Hzero.
  apply nil_length_inv in Hzero. by rewrite Hzero.
Qed.

(** A listed file that cannot be read makes the job raise, with
    nothing written. *)
Lemma create_unreadable FLAGS w :
  dirs_present w (input_data_dir FLAGS) = true →
  files_readable w (input_data_dir FLAGS) = false →
  ∃ e fed path,
    create_bottleneck_features sess_run randbelow FLAGS w
      = (Raise e, add_feeds fed w) ∧
    files w !! path = None ∧
    (extractor_ok sess_run → e = OSError_open path).
Proof.
  intros Hdirs%first_missing_None Hfiles.
  set (entries := shuffle randbelow (expected_entries w (input_data_dir FLAGS))).
  destruct (first_unreadable w entries.*1) as [path|] eqn:Hbad.
  2:{ apply first_unreadable_None in Hbad. unfold all_readable, entries in Hbad.
      rewrite shuffle_Permutation in Hbad.
      apply files_readable_all in Hbad. congruence. }
  destruct (get_batch_default_ok entries.*1) as (batches & Hget & Hcat).
  assert (Hne : entries ≠ []) by (intros Hnil; by rewrite Hnil in Hbad).
  rewrite create_bottleneck_features_eq, Hdirs. fold entries.
  rewrite zip_star_unpack_cons, Hget by done.
  rewrite <- Hcat in Hbad.
  destruct (featurize_loop_raises batches path [] w Hbad) as [e He].
  destruct (featurize_loop_world batches [] w) as [fed Hfed].
  destruct (for_ batches (featurize_batch sess_run) [] w) as [r w'] eqn:Hloop.
  simpl in He, Hfed. subst r w'.
  exists e, fed, path. split; [done|].
  split; [by destruct (first_unreadable_Some _ _ _ Hbad)|].
  intros Hok. pose proof (featurize_loop_spec batches Hok [] w) as Hspec.
  rewrite Hbad in Hspec. destruct Hspec as [fed' Hspec]. congruence.
Qed.

End job_facts.

(** ** Paths of the listed images *)

Section path_facts.
Implicit Types (s t : string).

Lemma append_nil_l t : "" +:+ t = t.
Proof. done. Qed.

Lemma append_cons c s t : String c s +:+ t = String c (s +:+ t).
Proof. done. Qed.

Lemma append_assoc' s t u : (s +:+ t) +:+ u = s +:+ t +:+ u.
Proof.
  induction s as [|c s IH]; [done|]. by rewrite !append_cons, IH.
Qed.

Lemma append_nil_inv s t : s +:+ t = "" → s = "" ∧ t = "".
Proof. by destruct s. Qed.

Lemma no_sep_starts s : no_sep s = true → starts_with_sep s = false.
Proof.
  destruct s as [|c r]; [done|]. simpl. by case_bool_decide.
Qed.

Lemma no_sep_ends s : no_sep s = true → ends_with_sep s = false.
Proof.
  induction s as [|c r IH]; [done|]. simpl.
  intros [Hc Hr]%andb_true_iff. destruct r; [|by apply IH].
  by case_bool_decide.
Qed.

Lemma ends_with_sep_cons c s : s ≠ "" → ends_with_sep (String c s) = ends_with_sep s.
Proof. by destruct s. Qed.

Lemma ends_with_sep_app s t : t ≠ "" → ends_with_sep (s +:+ t) = ends_with_sep t.
Proof.
  intros Ht. induction s as [|c s IH]; [done|]. rewrite append_cons.
  rewrite ends_with_sep_cons; [done|].
  by intros [_ ?]%append_nil_inv.
Qed.

Lemma split_raw_no_sep t : no_sep t = true → split_raw t = ("", t).
Proof.
  induction t as [|c r IH]; [done|]. simpl.
  intros [Hc Hr]%andb_true_iff. rewrite IH by done.
  by case_bool_decide.
Qed.

(** Splitting after a directory part, which is empty or ends with a
    separator. *)
Lemma split_raw_dir s t :
  s = "" ∨ ends_with_sep s = true → no_sep t = true →
  split_raw (s +:+ t) = (s, t).
Proof.
  intros Hs Ht. induction s as [|c r IH].
  - by apply split_raw_no_sep.
  - destruct Hs as [|Hends]; [done|]. destruct r as [|c' r'].
    + rewrite append_cons, append_nil_l. cbn [split_raw ends_with_sep] in *.
      rewrite split_raw_no_sep by done. by rewrite Hends.
    + rewrite ends_with_sep_cons in Hends by done.
      change (split_raw (String c (String c' r' +:+ t)) = (String c (String c' r'), t)).
      cbn [split_raw]. by rewrite IH by by right.
Qed.

Lemma rstrip_sep_id s : ends_with_sep s = false → rstrip_sep s = s.
Proof.
  induction s as [|c r IH]; [done|]. destruct r as [|c' r'].
  - simpl. by intros ->.
  - rewrite ends_with_sep_cons by done. intros Hr.
    cbn [rstrip_sep] in *. by rewrite IH.
Qed.

Lemma rstrip_sep_app_sep s : rstrip_sep (s +:+ "/") = rstrip_sep s.
Proof.
  induction s as [|c r IH]; [done|]. rewrite append_cons. cbn [rstrip_sep].
  by rewrite IH.
Qed.

(** os.path.join with a name appends it, after a separator if one is
    needed. *)
Lemma as_dir_ends s : as_dir s = "" ∨ ends_with_sep (as_dir s) = true.
Proof.
  unfold as_dir. destruct (bool_decide (s = "")) eqn:E; simpl.
  - left. by apply bool_decide_eq_true_1 in E.
  - right. destruct (ends_with_sep s) eqn:E'; [done|].
    by rewrite ends_with_sep_app.
Qed.

Lemma join_step_name s name :
  is_file_name name = true → join_step s name = as_dir s +:+ name.
Proof.
  intros [_ Hname]%andb_true_iff. unfold join_step, as_dir.
  rewrite no_sep_starts by done.
  destruct (bool_decide (s = "") || ends_with_sep s); [done|].
  by rewrite append_assoc'.
Qed.

Lemma path_join_names img_dir folder image :
  is_file_name folder = true → is_file_name image = true →
  path_join img_dir [folder; image]
  = (as_dir img_dir +:+ folder) +:+ "/" +:+ image.
Proof.
  intros Hfolder Himage. unfold path_join. cbn [foldl].
  rewrite (join_step_name img_dir) by done.
  rewrite join_step_name by done.
  apply andb_true_iff in Hfolder as [Hne Hfolder].
  apply negb_true_iff, bool_decide_eq_false_1 in Hne.
  unfold as_dir at 1.
  rewrite ends_with_sep_app, no_sep_ends, orb_false_r by done.
  rewrite bool_decide_eq_false_2; [apply append_assoc'|].
  by intros [_ ?]%append_nil_inv.
Qed.

(** The listed path of an image names it and its category. *)
Lemma parent_name_join img_dir folder image :
  is_file_name folder = true → is_file_name image = true →
  basename (path_join img_dir [folder; image]) = image ∧
  parent_name (path_join img_dir [folder; image]) = folder.
Proof.
  intros Hfolder Himage. rewrite path_join_names by done.
  apply andb_true_iff in Hfolder as [Hne Hfolder].
  apply negb_true_iff, bool_decide_eq_false_1 in Hne.
  apply andb_true_iff in Himage as [_ Himage].
  set (dir := as_dir img_dir +:+ folder).
  assert (Hdir_ends : ends_with_sep dir = false).
  { unfold dir. by rewrite ends_with_sep_app, no_sep_ends. }
  assert (Hsplit : split_raw (dir +:+ "/" +:+ image) = (dir +:+ "/", image)).
  { rewrite <- append_assoc'. apply split_raw_dir; [|done].
    right. by rewrite ends_with_sep_app. }
  unfold parent_name, dirname, basename. rewrite Hsplit. cbn [fst snd].
  split; [done|].
  rewrite rstrip_sep_app_sep, rstrip_sep_id by done.
  assert (Hdir : split_raw dir = (as_dir img_dir, folder)).
  { apply split_raw_dir; [apply as_dir_ends | done]. }
  clearbody dir. destruct dir as [|c r]; [|by rewrite Hdir].
  cbn [split_raw] in Hdir. by simplify_eq.
Qed.

Lemma folders_are_names folder : folder ∈ folders → is_file_name folder = true.
Proof.
  unfold folders, label_map. cbn [fmap list_fmap fst].
  rewrite !elem_of_cons, elem_of_nil.
  intros H. repeat (destruct H as [->|H]; [done|]). done.
Qed.
End path_facts.

(** ** Labels and their counts *)

Section label_facts.
Context {F : Type}.
Implicit Types (w : world F) (k label : nat).

Lemma filter_eq_replicate (m : nat) label k :
  filter (λ l, l = k) (replicate m label)
  = if decide (label = k) then replicate m label else [].
Proof.
  induction m as [|m IH]; [by case_decide|]. cbn [replicate].
  rewrite filter_cons, IH. by repeat case_decide.
Qed.

Lemma count_labels_gen (n : string → nat) (lm : list (string * nat)) k :
  length (filter (λ l, l = k)
            (concat ((λ '(folder, label), replicate (n folder) label) <$> lm)))
  = sum_list ((λ '(folder, label), if decide (label = k) then n folder else 0)
                <$> lm).
Proof.
  induction lm as [|[folder label] lm IH]; [done|].
  rewrite !fmap_cons. cbn [concat sum_list sum_list_with].
  rewrite filter_app, length_app, IH, filter_eq_replicate.
  case_decide; by rewrite ?length_replicate.
Qed.

(** Each label occurs as often as its category has images. *)
Lemma label_count w img_dir k folder :
  folders !! k = Some folder →
  length (filter (λ l, l = k) (expected_entries w img_dir).*2)
  = length (category_images w img_dir folder).
Proof.
  intros Hk. unfold expected_entries.
  rewrite expected_labels_gen, count_labels_gen. unfold label_map.
  do 6 (destruct k as [|k]; [simplify_eq/=; lia|]). done.
Qed.

Lemma filter_length_pos {A} (P : A → Prop) `{∀ x, Decision (P x)} (l : list A) :
  0 < length (filter P l) ↔ ∃ x, x ∈ l ∧ P x.
Proof.
  split.
  - destruct (filter P l) as [|x l'] eqn:E; [simpl; lia|]. intros _.
    assert (Hx : x ∈ filter P l) by (rewrite E; left).
    apply list_elem_of_filter in Hx as [? ?]. by exists x.
  - intros (x & Hin & HP).
    assert (Hx : x ∈ filter P l) by by apply list_elem_of_filter.
    destruct (filter P l); [by apply elem_of_nil in Hx | simpl; lia].
Qed.

Lemma label_elem w img_dir k folder :
  folders !! k = Some folder →
  k ∈ (expected_entries w img_dir).*2 ↔ category_images w img_dir folder ≠ [].
Proof.
  intros Hk. pose proof (label_count w img_dir k folder Hk) as Hcount.
  pose proof (filter_length_pos (λ l, l = k) (expected_entries w img_dir).*2)
    as Hpos.
  rewrite Hcount in Hpos. split.
  - intros Hin Hnil. rewrite Hnil in Hpos. simpl in Hpos.
    assert (0 < 0); [|lia]. apply Hpos. by exists k.
  - intros Hne. destruct Hpos as [Hpos _].
    destruct Hpos as (x & Hin & ->); [|done].
    destruct (category_images w img_dir folder); [done | simpl; lia].
Qed.

Lemma label_in_vocabulary w img_dir k :
  k ∈ (expected_entries w img_dir).*2 → ∃ folder, folders !! k = Some folder.
Proof.
  intros ([path label] & -> & Hin)%list_elem_of_fmap.
  apply expected_entry_origin in Hin as (folder & image & Hlm & _).
  exists folder. unfold folders. cbn [snd]. by rewrite list_lookup_fmap, Hlm.
Qed.

Lemma dict_get_index folder k :
  dict_get label_map folder = Ok k ↔ folders !! k = Some folder.
Proof.
  unfold folders, label_map. split.
  - cbn [dict_get]. repeat case_bool_decide; by intros; simplify_eq.
  - intros Hk. do 6 (destruct k as [|k]; [by simplify_eq/=|]). done.
Qed.

Lemma folders_NoDup : NoDup folders.
Proof. apply (bool_decide_unpack _). by vm_compute. Qed.

Lemma sum_list_delete (l : list nat) k x :
  l !! k = Some x → sum_list l = x + sum_list (delete k l).
Proof.
  revert k. induction l as [|y l IH]; intros [|k] Hk; simplify_eq/=; [done|].
  rewrite (IH k) by done. lia.
Qed.

Lemma total_without w img_dir k folder :
  folders !! k = Some folder →
  total_image_count w img_dir
  = length (category_images w img_dir folder) +
    sum_list ((λ f, length (category_images w img_dir f)) <$> delete k folders).
Proof.
  intros Hk. unfold total_image_count.
  rewrite (sum_list_delete _ k (length (category_images w img_dir folder)))
    by (by rewrite list_lookup_fmap, Hk).
  f_equal. f_equal. clear Hk. revert k.
  induction folders as [|f fs IH]; intros [|k]; simpl; [done..|].
  by rewrite IH.
Qed.

Lemma if_elem_cons_eq (f : string) fs (a b : nat) :
  (if decide (f ∈ f :: fs) then a else b) = a.
Proof. rewrite decide_True; [done | left]. Qed.

Lemma if_elem_cons_ne (x f : string) fs (a b : nat) :
  x ≠ f →
  (if decide (x ∈ f :: fs) then a else b) = (if decide (x ∈ fs) then a else b).
Proof.
  intros Hne. apply decide_ext. rewrite elem_of_cons. tauto.
Qed.

Lemma sum_two (n : string → nat) (c1 c2 : string) (fs : list string) :
  NoDup fs → c1 ≠ c2 →
  (∀ c, c ∈ fs → c ≠ c1 → c ≠ c2 → n c = 0) →
  sum_list (n <$> fs)
  = (if decide (c1 ∈ fs) then n c1 else 0) +
    (if decide (c2 ∈ fs) then n c2 else 0).
Proof.
  intros Hnd Hne. induction Hnd as [|f fs Hf Hnd IH]; intros Hrest.
  - rewrite !decide_False by apply not_elem_of_nil. done.
  - rewrite fmap_cons. cbn [sum_list sum_list_with].
    rewrite IH by (intros c ?; apply Hrest; by right).
    destruct (decide (f = c1)) as [->|Hf1]; [|destruct (decide (f = c2)) as [->|Hf2]].
    + rewrite if_elem_cons_eq, (if_elem_cons_ne c2), (decide_False (P := c1 ∈ fs));
        [unfold id; lia | done | congruence].
    + rewrite if_elem_cons_eq, (if_elem_cons_ne c1), (decide_False (P := c2 ∈ fs));
        [unfold id; lia | done | congruence].
    + rewrite (Hrest f), !if_elem_cons_ne by (done || left). unfold id. lia.
Qed.

(** Two categories hold all the images. *)
Lemma total_two w img_dir k1 k2 c1 c2 :
  folders !! k1 = Some c1 → folders !! k2 = Some c2 → k1 ≠ k2 →
  (∀ c, c ∈ folders → c ≠ c1 → c ≠ c2 → category_images w img_dir c = []) →
  total_image_count w img_dir
  = length (category_images w img_dir c1) + length (category_images w img_dir c2).
Proof.
  intros H1 H2 Hne Hrest. unfold total_image_count.
  rewrite (sum_two _ c1 c2).
  - rewrite !decide_True; [done|by eapply list_elem_of_lookup_2..].
  - apply folders_NoDup.
  - intros ->. apply Hne. by eapply NoDup_lookup; [apply folders_NoDup|..].
  - intros c ? ? ?. by rewrite Hrest.
Qed.
End label_facts.

(** ** What a run without error tells *)

Section job_success.
Context {F : Type}.
Variable sess_run : list (list byte) → option (list (list F)).
Variable randbelow : nat → nat.
Implicit Types (w : world F) (FLAGS : flags).

(** Whatever array the session returns, the rows of its reshaping have
    2048 elements, as many rows as the array has items, and the same
    elements in the same order. *)
Lemma np_reshape_rows_Ok (items rows : list (list F)) :
  np_reshape_rows items = Ok rows →
  Forall (λ r, length r = feature_dim) rows ∧
  length rows = length items ∧ concat rows = concat items.
Proof.
  unfold np_reshape_rows. case_bool_decide as Hlen; [|done].
  intros [= <-]. split; [|split].
  - apply Forall_fmap, Forall_forall. intros k Hk%elem_of_seq. simpl.
    rewrite chunk_at_take_drop, chunk_length, Hlen.
    assert (0 < feature_dim) by (unfold feature_dim; lia). nia.
  - by rewrite length_fmap, length_seq.
  - apply chunks_concat. lia.
Qed.

Lemma featurize_loop_rows batches : ∀ acc w rows w',
  for_ batches (featurize_batch sess_run) acc w = (Ok rows, w') →
  Forall (λ r, length r = feature_dim) acc →
  Forall (λ r, length r = feature_dim) rows ∧
  first_unreadable w (concat batches) = None.
Proof.
  induction batches as [|paths batches IH]; intros acc w rows w'.
  - rewrite for_nil. by intros [= <- <-].
  - rewrite for_cons, featurize_batch_eq. cbn [concat].
    unfold first_unreadable at 2. rewrite find_app_or.
    fold (first_unreadable w paths).
    destruct (first_unreadable w paths); [done|]. cbn zeta.
    destruct (sess_run (read_all w paths)) as [items|]; [|done].
    destruct (np_reshape_rows items) as [new|] eqn:Hreshape; [|done].
    intros Hloop Hacc. apply np_reshape_rows_Ok in Hreshape as (Hnew & _).
    apply IH in Hloop; [|by apply Forall_app]. done.
Qed.

(** A run that ends without error has gone through every step. *)
Lemma create_Ok_inv FLAGS w :
  (create_bottleneck_features sess_run randbelow FLAGS w).1 = Ok () →
  let entries := shuffle randbelow (expected_entries w (input_data_dir FLAGS)) in
  first_missing w (input_data_dir FLAGS) = None ∧
  entries ≠ [] ∧
  first_unreadable w entries.*1 = None ∧
  ∃ rows,
    Forall (λ r, length r = feature_dim) rows ∧
    h5_files (create_bottleneck_features sess_run randbelow FLAGS w).2
      !! output_path FLAGS
    = Some {| features := rows; labels := entries.*2 |}.
Proof.
  rewrite !create_bottleneck_features_eq. cbn zeta.
  destruct (first_missing w (input_data_dir FLAGS)); [done|].
  destruct (shuffle randbelow (expected_entries w (input_data_dir FLAGS)))
    as [|entry entries] eqn:Hentries; [done|].
  rewrite zip_star_unpack_cons by done.
  destruct (get_batch_default_ok (entry :: entries).*1) as (batches & -> & Hcat).
  destruct (for_ batches (featurize_batch sess_run) [] w) as [[rows|e] w'] eqn:Hloop;
    [|done].
  intros Hwrite. apply featurize_loop_rows in Hloop as [Hrows Hread]; [|done].
  rewrite Hcat in Hread. repeat split; [done..|]. exists rows.
  split; [done|]. by apply h5_write_Ok.
Qed.

(** A run that ends without error had a valid input with an image. *)
Lemma create_Ok_valid FLAGS w :
  (create_bottleneck_features sess_run randbelow FLAGS w).1 = Ok () →
  valid_input w (input_data_dir FLAGS) = true ∧
  0 < total_image_count w (input_data_dir FLAGS).
Proof.
  intros (Hdirs & Hne & Hread & _)%create_Ok_inv. split.
  - apply andb_true_iff. split; [by apply first_missing_None|].
    apply files_readable_all. apply first_unreadable_None in Hread.
    unfold all_readable in *. by rewrite shuffle_Permutation in Hread.
  - rewrite <- expected_length, <- (shuffle_length randbelow).
    destruct (shuffle randbelow _); [done | simpl; lia].
Qed.
End job_success.

(** ** The properties of the job *)

(** C1, as the job does it: on a valid input (the six category
    directories present, every listed file readable, the featurizer
    giving one 2048-vector per image) that holds [N > 0] files in all,
    the job raises nothing before the write and hands to it [N] feature
    rows of 2048 elements each and [N] labels; when the write raises
    nothing these are the datasets of the file at the output path, and
    the only errors left are those of the write. *)
Theorem output_sizes {F} (sess_run : list (list byte) → option (list (list F)))
    (randbelow : nat → nat) (FLAGS : flags) (w : world F) :
  valid_input w (input_data_dir FLAGS) = true →
  extractor_ok sess_run →
  0 < total_image_count w (input_data_dir FLAGS) →
  let N := total_image_count w (input_data_dir FLAGS) in
  let run := create_bottleneck_features sess_run randbelow FLAGS w in
  ∃ art fed,
    length (features art) = N ∧
    Forall (λ row, length row = 2048) (features art) ∧
    length (labels art) = N ∧
    run = h5_write (output_path FLAGS) art (add_feeds fed w) ∧
    (run.1 = Ok () → h5_files run.2 !! output_path FLAGS = Some art) ∧
    (∀ e, run.1 = Raise e →
       e = OSError_h5 (output_path FLAGS) ∨ e = TypeError_dataset).
Proof.
  intros Hvalid Hok Hpos N run.
  destruct (create_ok sess_run randbelow FLAGS w Hvalid Hok Hpos)
    as (batches & _ & Hcat & Hrun).
  destruct (loop_rows_shape sess_run w batches Hok) as [Hlen Hrows].
  exists {| features := concat ((λ paths, default [] (sess_run (read_all w paths)))
                                  <$> batches);
            labels := (shuffle randbelow
                         (expected_entries w (input_data_dir FLAGS))).*2 |},
         (read_all w <$> batches).
  unfold run. rewrite Hrun. cbn [features labels]. split_and!.
  - by rewrite Hlen, Hcat, length_fmap, shuffle_length, expected_length.
  - exact Hrows.
  - by rewrite length_fmap, shuffle_length, expected_length.
  - done.
  - apply h5_write_Ok.
  - intros e [[-> _] | [-> _]]%h5_write_Raise; by eauto.
Qed.

(** C10: when the six category directories exist and hold no file at
    all, the listing succeeds with the empty list, whose shuffle is
    empty, and the job raises at the unpacking of the zipped list; the
    session has been fed nothing and nothing has been written: the world
    is as it was. *)
Theorem no_images_raises {F} (sess_run : list (list byte) → option (list (list F)))
    (randbelow : nat → nat) (FLAGS : flags) (w : world F) :
  dirs_present w (input_data_dir FLAGS) = true →
  total_image_count w (input_data_dir FLAGS) = 0 →
  list_labeled_images (input_data_dir FLAGS) w = (Ok [], w) ∧
  zip_star_unpack (shuffle randbelow []) = Raise ValueError_unpack ∧
  create_bottleneck_features sess_run randbelow FLAGS w
    = (Raise ValueError_unpack, w).
Proof.
  intros Hdirs Hzero.
  assert (Hnone : expected_entries w (input_data_dir FLAGS) = []).
  { apply nil_length_inv. by rewrite expected_length. }
  split.
  { rewrite list_labeled_images_spec, <- Hnone.
    apply first_missing_None in Hdirs. by rewrite Hdirs. }
  split; [done|]. by apply create_no_images.
Qed.

(** C5: when a category directory is missing or a listed file cannot be
    read, the job raises, the exception goes to its caller, and no
    output file has been written or touched.  A missing directory raises
    the error of os.listdir on it before the session is fed anything;
    with the directories there and a featurizer that does its part, the
    error is that of opening an unreadable file. *)
Theorem fail_fast {F} (sess_run : list (list byte) → option (list (list F)))
    (randbelow : nat → nat) (FLAGS : flags) (w : world F) :
  valid_input w (input_data_dir FLAGS) = false →
  let img_dir := input_data_dir FLAGS in
  let run := create_bottleneck_features sess_run randbelow FLAGS w in
  ∃ e,
    run.1 = Raise e ∧
    h5_files run.2 = h5_files w ∧ dirs run.2 = dirs w ∧ files run.2 = files w ∧
    (dirs_present w img_dir = false →
       sess_feeds run.2 = sess_feeds w ∧
       ∃ folder, folder ∈ folders ∧
                 dirs w !! path_join img_dir [folder] = None ∧
                 e = OSError_listdir (path_join img_dir [folder])) ∧
    (dirs_present w img_dir = true → extractor_ok sess_run →
       ∃ path, files w !! path = None ∧ e = OSError_open path).
Proof.
  intros Hinvalid img_dir run. unfold run.
  destruct (dirs_present w img_dir) eqn:Hdirs.
  - assert (Hfiles : files_readable w img_dir = false).
    { unfold valid_input in Hinvalid. fold img_dir in Hinvalid.
      by rewrite Hdirs in Hinvalid. }
    destruct (create_unreadable sess_run randbelow FLAGS w Hdirs Hfiles)
      as (e & fed & path & -> & Hnone & He).
    exists e. cbn [fst snd]. repeat split; try done.
    intros _ Hok. exists path. split; [done | by apply He].
  - destruct (first_missing_cases w img_dir Hdirs) as [path Hmiss].
    rewrite create_bottleneck_features_eq. fold img_dir. rewrite Hmiss.
    exists (OSError_listdir path). cbn [fst snd]. repeat split; try done.
    apply first_missing_Some in Hmiss as (Hnone & folder & Hin & ->).
    by exists folder.
Qed.

(** C3: the batch_size flag is never read, so a run does the same with
    any value of it: with batch_size 4 over 8 images the session is fed
    one batch of 8 images, as the default size 64 of get_batch has it,
    where get_batch with size 4 would yield two batches of 4. *)
Theorem batch_size_flag_unused :
  (∀ F (sess_run : list (list byte) → option (list (list F))) randbelow
     (b : Z) FLAGS w,
     create_bottleneck_features sess_run randbelow (with_batch_size b FLAGS) w
     = create_bottleneck_features sess_run randbelow FLAGS w) ∧
  let run := create_bottleneck_features demo_sess_run demo_randbelow
               (with_batch_size 4 default_flags) world_3_5 in
  run.1 = Ok () ∧
  batch_size (with_batch_size 4 default_flags) = 4%Z ∧
  length <$> sess_feeds run.2 = [8] ∧
  get_batch (seq 0 8) 4 = Ok [[0; 1; 2; 3]; [4; 5; 6; 7]].
Proof. split; [done|]. vm_compute. done. Qed.

(** C9: the label vocabulary is the hard-coded list of the six category
    names, each with its position in the list as label, and every listed
    image carries the label of the category directory it was listed in:
    its path is that directory's path joined with the image's name, so
    that the name of the directory the path lies in is the category's
    name. *)
Theorem label_is_parent_index {F} (img_dir : string) (w w' : world F)
    (listed : list (string * nat)) (path : string) (label : nat) :
  list_labeled_images img_dir w = (Ok listed, w') →
  (path, label) ∈ listed →
  label_map = [("Barren", 0); ("Cultivated", 1); ("Developed", 2);
               ("Forest", 3); ("Herbaceous", 4); ("Shrub", 5)] ∧
  (∀ name k, dict_get label_map name = Ok k ↔ folders !! k = Some name) ∧
  ∃ folder image images,
    folders !! label = Some folder ∧
    dirs w !! path_join img_dir [folder] = Some images ∧
    image ∈ images ∧
    path = path_join img_dir [folder; image] ∧
    (is_file_name image = true →
       parent_name path = folder ∧ basename path = image).
Proof.
  intros Hlist Hin. split; [done|]. split; [apply dict_get_index|].
  rewrite list_labeled_images_spec in Hlist.
  destruct (first_missing w img_dir); simplify_eq.
  apply expected_entry_origin in Hin as (folder & image & Hlm & Himage & ->).
  assert (Hfolder : folders !! label = Some folder).
  { unfold folders. by rewrite list_lookup_fmap, Hlm. }
  unfold category_images in Himage.
  destruct (dirs w' !! path_join img_dir [folder]) as [images|] eqn:Hdir;
    [|by apply elem_of_nil in Himage].
  exists folder, image, images. repeat split; try done.
  - apply parent_name_join; [|done].
    apply folders_are_names. by eapply list_elem_of_lookup_2.
  - apply parent_name_join; [|done].
    apply folders_are_names. by eapply list_elem_of_lookup_2.
Qed.

(** C2: when the run ends without error, the rows of the written file
    follow the shuffled list: at every position [i] of it, holding the
    pair of a path and a label, entry [i] of the labels is that label,
    row [i] of the features is the feature vector of the bytes of the
    file at that path, and the label is the index of the category
    directory the path was listed in. *)
Theorem rows_aligned {F} (sess_run : list (list byte) → option (list (list F)))
    (randbelow : nat → nat) (φ : list byte → list F) (FLAGS : flags)
    (w : world F) :
  extractor_pointwise sess_run φ →
  let img_dir := input_data_dir FLAGS in
  let run := create_bottleneck_features sess_run randbelow FLAGS w in
  run.1 = Ok () →
  ∃ listed art,
    list_labeled_images img_dir w = (Ok listed, w) ∧
    let entries := shuffle randbelow listed in
    entries ≡ₚ listed ∧
    h5_files run.2 !! output_path FLAGS = Some art ∧
    length (features art) = length entries ∧
    length (labels art) = length entries ∧
    ∀ i path label, entries !! i = Some (path, label) →
      labels art !! i = Some label ∧
      (∃ data, files w !! path = Some data ∧
               features art !! i = Some (φ data)) ∧
      (∃ folder image,
         folders !! label = Some folder ∧
         image ∈ category_images w img_dir folder ∧
         path = path_join img_dir [folder; image]).
Proof.
  intros Hpoint img_dir run Hsuccess.
  destruct (create_Ok_valid sess_run randbelow FLAGS w Hsuccess) as [Hvalid Hpos].
  pose proof (extractor_pointwise_ok sess_run φ Hpoint) as Hok.
  destruct (create_ok sess_run randbelow FLAGS w Hvalid Hok Hpos)
    as (batches & _ & Hcat & Hrun).
  apply andb_true_iff in Hvalid as [Hdirs Hfiles].
  eexists (expected_entries w img_dir), _. split.
  { rewrite list_labeled_images_spec.
    apply first_missing_None in Hdirs. fold img_dir in Hdirs. by rewrite Hdirs. }
  cbn zeta. split; [apply shuffle_Permutation|].
  unfold run in *. rewrite Hrun in Hsuccess |- *.
  split; [by apply h5_write_Ok|]. cbn [features labels].
  rewrite (loop_rows_pointwise sess_run w φ batches Hpoint), Hcat.
  fold img_dir. set (entries := shuffle randbelow (expected_entries w img_dir)).
  unfold read_all. rewrite !length_fmap. split; [done|]. split; [done|].
  intros i path label Hi. split; [by rewrite list_lookup_fmap, Hi|]. split.
  - pose proof (shuffled_paths_readable randbelow w img_dir Hfiles) as Hread.
    fold entries in Hread. unfold all_readable in Hread.
    rewrite Forall_lookup in Hread.
    destruct (Hread i path) as [data Hdata]; [by rewrite list_lookup_fmap, Hi|].
    exists data. split; [done|].
    rewrite !list_lookup_fmap, Hi. simpl. by rewrite Hdata.
  - assert (Hin : (path, label) ∈ expected_entries w img_dir).
    { rewrite <- (shuffle_Permutation randbelow). by eapply list_elem_of_lookup_2. }
    apply expected_entry_origin in Hin as (folder & image & Hlm & Himage & ->).
    exists folder, image. split; [|done].
    unfold folders. by rewrite list_lookup_fmap, Hlm.
Qed.

(** C6, as the job does it: a category directory that exists and is
    empty gives no pair to the listing, which raises nothing; the number
    of rows is the number of images of the other categories.  When
    these hold an image the job raises nothing before the write and
    hands to it that many rows, none with the label of the empty
    category, the datasets of the file when the write raises nothing;
    when they hold none the job raises at the unpacking. *)
Theorem empty_category {F} (sess_run : list (list byte) → option (list (list F)))
    (randbelow : nat → nat) (FLAGS : flags) (w : world F)
    (k : nat) (folder : string) :
  folders !! k = Some folder →
  dirs w !! path_join (input_data_dir FLAGS) [folder] = Some [] →
  valid_input w (input_data_dir FLAGS) = true →
  extractor_ok sess_run →
  let img_dir := input_data_dir FLAGS in
  let run := create_bottleneck_features sess_run randbelow FLAGS w in
  let others := sum_list ((λ f, length (category_images w img_dir f))
                            <$> delete k folders) in
  (∃ listed, list_labeled_images img_dir w = (Ok listed, w) ∧
             (k ∉ listed.*2) ∧ length listed = others) ∧
  (0 < others →
     ∃ art fed,
       length (features art) = others ∧
       length (labels art) = others ∧
       (k ∉ labels art) ∧
       run = h5_write (output_path FLAGS) art (add_feeds fed w) ∧
       (run.1 = Ok () → h5_files run.2 !! output_path FLAGS = Some art)) ∧
  (others = 0 → run = (Raise ValueError_unpack, w)).
Proof.
  intros Hk Hempty Hvalid Hok img_dir run others.
  assert (Himages : category_images w img_dir folder = []).
  { unfold category_images, img_dir. by rewrite Hempty. }
  assert (Htotal : total_image_count w img_dir = others).
  { rewrite (total_without w img_dir k folder Hk), Himages. done. }
  assert (Hnot : k ∉ (expected_entries w img_dir).*2).
  { rewrite (label_elem w img_dir k folder Hk). by intros []. }
  pose proof Hvalid as [Hdirs _]%andb_true_iff.
  split; [|split].
  - exists (expected_entries w img_dir). split.
    + rewrite list_labeled_images_spec.
      apply first_missing_None in Hdirs. fold img_dir in Hdirs. by rewrite Hdirs.
    + split; [done|]. by rewrite expected_length.
  - intros Hpos. fold img_dir in Htotal. rewrite <- Htotal in Hpos.
    destruct (create_ok sess_run randbelow FLAGS w Hvalid Hok Hpos)
      as (batches & _ & Hcat & Hrun).
    destruct (loop_rows_shape sess_run w batches Hok) as [Hlen _].
    fold img_dir in Hcat, Hrun.
    exists {| features := concat ((λ paths, default [] (sess_run (read_all w paths)))
                                    <$> batches);
              labels := (shuffle randbelow (expected_entries w img_dir)).*2 |},
           (read_all w <$> batches).
    unfold run. rewrite Hrun. cbn [features labels]. split_and!.
    + by rewrite Hlen, Hcat, length_fmap, shuffle_length, expected_length.
    + by rewrite length_fmap, shuffle_length, expected_length.
    + by rewrite (shuffle_Permutation randbelow (expected_entries w img_dir)).
    + done.
    + apply h5_write_Ok.
  - intros Hzero. unfold run. apply create_no_images; [done|].
    fold img_dir. by rewrite Htotal.
Qed.

(** C7, as the job does it: with the six category directories present,
    two of them holding 3 and 5 readable images and the other four empty,
    a run with batch_size 4 raises nothing before the write and hands to
    it 8 feature rows of 2048 elements and 8 labels, the datasets of the
    file when the write raises nothing; the labels that occur are the
    indices of the two categories, 3 and 5 times. *)
Theorem two_categories {F} (sess_run : list (list byte) → option (list (list F)))
    (randbelow : nat → nat) (FLAGS : flags) (w : world F)
    (k1 k2 : nat) (c1 c2 : string) :
  let img_dir := input_data_dir FLAGS in
  folders !! k1 = Some c1 → folders !! k2 = Some c2 → k1 ≠ k2 →
  valid_input w img_dir = true →
  extractor_ok sess_run →
  length (category_images w img_dir c1) = 3 →
  length (category_images w img_dir c2) = 5 →
  (∀ c, c ∈ folders → c ≠ c1 → c ≠ c2 → category_images w img_dir c = []) →
  let run := create_bottleneck_features sess_run randbelow
               (with_batch_size 4 FLAGS) w in
  ∃ art fed,
    length (features art) = 8 ∧
    Forall (λ row, length row = 2048) (features art) ∧
    length (labels art) = 8 ∧
    (∀ l, l ∈ labels art ↔ l = k1 ∨ l = k2) ∧
    length (filter (λ l, l = k1) (labels art)) = 3 ∧
    length (filter (λ l, l = k2) (labels art)) = 5 ∧
    run = h5_write (output_path FLAGS) art (add_feeds fed w) ∧
    (run.1 = Ok () → h5_files run.2 !! output_path FLAGS = Some art).
Proof.
  intros img_dir H1 H2 Hne Hvalid Hok Hn1 Hn2 Hrest run.
  assert (Htotal : total_image_count w img_dir = 8).
  { rewrite (total_two w img_dir k1 k2 c1 c2) by done. lia. }
  assert (Hpos : 0 < total_image_count w (input_data_dir (with_batch_size 4 FLAGS)))
    by (change (0 < total_image_count w img_dir); lia).
  destruct (create_ok sess_run randbelow (with_batch_size 4 FLAGS) w Hvalid Hok Hpos)
    as (batches & _ & Hcat & Hrun).
  destruct (loop_rows_shape sess_run w batches Hok) as [Hlen Hrows].
  change (input_data_dir (with_batch_size 4 FLAGS)) with img_dir in *.
  change (output_path (with_batch_size 4 FLAGS)) with (output_path FLAGS) in *.
  exists {| features := concat ((λ paths, default [] (sess_run (read_all w paths)))
                                  <$> batches);
            labels := (shuffle randbelow (expected_entries w img_dir)).*2 |},
         (read_all w <$> batches).
  unfold run. rewrite Hrun. cbn [features labels]. split_and!.
  - by rewrite Hlen, Hcat, length_fmap, shuffle_length, expected_length.
  - exact Hrows.
  - by rewrite length_fmap, shuffle_length, expected_length.
  - intros l. rewrite (shuffle_Permutation randbelow (expected_entries w img_dir)).
    split.
    + intros Hl. destruct (label_in_vocabulary w img_dir l Hl) as [c Hc].
      apply (label_elem w img_dir l c Hc) in Hl.
      destruct (decide (c = c1)) as [->|Hc1];
        [left; by eapply NoDup_lookup; [apply folders_NoDup|..]|].
      destruct (decide (c = c2)) as [->|Hc2];
        [right; by eapply NoDup_lookup; [apply folders_NoDup|..]|].
      destruct Hl. apply Hrest; [by eapply list_elem_of_lookup_2|done..].
    + intros [-> | ->].
      * apply (label_elem w img_dir k1 c1 H1). intros Hnil. by rewrite Hnil in Hn1.
      * apply (label_elem w img_dir k2 c2 H2). intros Hnil. by rewrite Hnil in Hn2.
  - rewrite (shuffle_Permutation randbelow (expected_entries w img_dir)).
    by rewrite (label_count w img_dir k1 c1).
  - rewrite (shuffle_Permutation randbelow (expected_entries w img_dir)).
    by rewrite (label_count w img_dir k2 c2).
  - done.
  - apply h5_write_Ok.
Qed.

(** ** The properties on the example inputs *)

Lemma demo_extractor_pointwise : extractor_pointwise demo_sess_run demo_features.
Proof.
  split; [done|]. intros img. unfold demo_features. apply length_replicate.
Qed.

Lemma demo_extractor_ok : extractor_ok demo_sess_run.
Proof. exact (extractor_pointwise_ok _ _ demo_extractor_pointwise). Qed.

Lemma get_batch_partition_witness :
  ∃ batches,
    get_batch [1; 2; 3; 4; 5; 6; 7] 3 = Ok batches ∧
    concat batches = [1; 2; 3; 4; 5; 6; 7] ∧
    (∀ k batch, batches !! k = Some batch →
       batch = slice [1; 2; 3; 4; 5; 6; 7] (k * 3) (k * 3 + 3) ∧
       0 < length batch ≤ 3 ∧
       (S k < length batches → length batch = 3)) ∧
    (∀ i x, [1; 2; 3; 4; 5; 6; 7] !! i = Some x →
       ∃ batch, batches !! (i `div` 3) = Some batch ∧
                batch !! (i `mod` 3) = Some x) ∧
    (∀ k j batch x, batches !! k = Some batch → batch !! j = Some x →
       j < 3 ∧ [1; 2; 3; 4; 5; 6; 7] !! (k * 3 + j) = Some x).
Proof. apply (get_batch_partition [1; 2; 3; 4; 5; 6; 7] 3). reflexivity. Defined.

Lemma get_batch_single_witness :
  get_batch ["a.png"; "b.png"; "c.png"] 64 = Ok [["a.png"; "b.png"; "c.png"]].
Proof.
  apply (get_batch_single ["a.png"; "b.png"; "c.png"] 64); simpl; lia.
Defined.

Lemma output_sizes_witness :
  let run := create_bottleneck_features demo_sess_run demo_randbelow
               default_flags world_3_5 in
  ∃ art fed,
    length (features art) = total_image_count world_3_5 "aerialtiny" ∧
    Forall (λ row, length row = 2048) (features art) ∧
    length (labels art) = total_image_count world_3_5 "aerialtiny" ∧
    run = h5_write (output_path default_flags) art (add_feeds fed world_3_5) ∧
    (run.1 = Ok () → h5_files run.2 !! output_path default_flags = Some art) ∧
    (∀ e, run.1 = Raise e →
       e = OSError_h5 (output_path default_flags) ∨ e = TypeError_dataset).
Proof.
  apply (output_sizes demo_sess_run demo_randbelow default_flags world_3_5);
    [reflexivity | apply demo_extractor_ok | vm_compute; lia].
Defined.

(** Without the output directory the same run raises at the opening
    of the output file, after the session was fed, and no file is
    there. *)
Example write_needs_output_dir :
  let run := create_bottleneck_features demo_sess_run demo_randbelow
               default_flags world_3_5_no_output_dir in
  run.1 = Raise (OSError_h5 "bottleneck_features/aerial_bottleneck_resnet50.h5") ∧
  length <$> sess_feeds run.2 = [8] ∧
  h5_files run.2 = ∅ ∧ files run.2 = files world_3_5_no_output_dir.
Proof. by vm_compute. Qed.

(** C1, as it is stated: the six category directories are there, empty,
    so that every listed file is readable, and the job raises at the
    unpacking: there is no artifact with 0 rows. *)
Lemma all_empty_no_artifact :
  valid_input world_all_empty "aerialtiny" = true ∧
  total_image_count world_all_empty "aerialtiny" = 0 ∧
  let run := create_bottleneck_features demo_sess_run demo_randbelow
               default_flags world_all_empty in
  run = (Raise ValueError_unpack, world_all_empty) ∧
  ¬ (∃ art, h5_files run.2 !! output_path default_flags = Some art ∧
            length (features art) = 0 ∧ length (labels art) = 0).
Proof.
  split; [reflexivity|]. split; [reflexivity|].
  split; [by vm_compute|]. by intros (art & Hart & _).
Qed.

Lemma no_images_raises_witness :
  list_labeled_images (input_data_dir default_flags) world_all_empty
    = (Ok [], world_all_empty) ∧
  zip_star_unpack (shuffle demo_randbelow []) = Raise ValueError_unpack ∧
  create_bottleneck_features demo_sess_run demo_randbelow default_flags
    world_all_empty
    = (Raise ValueError_unpack, world_all_empty).
Proof.
  apply (no_images_raises demo_sess_run demo_randbelow default_flags
           world_all_empty); reflexivity.
Defined.

Lemma fail_fast_witness :
  valid_input world_unreadable "aerialtiny" = false ∧
  let run := create_bottleneck_features demo_sess_run demo_randbelow
               default_flags world_unreadable in
  ∃ e,
    run.1 = Raise e ∧
    h5_files run.2 = h5_files world_unreadable ∧
    dirs run.2 = dirs world_unreadable ∧
    files run.2 = files world_unreadable ∧
    (dirs_present world_unreadable "aerialtiny" = false →
       sess_feeds run.2 = sess_feeds world_unreadable ∧
       ∃ folder, folder ∈ folders ∧
                 dirs world_unreadable !! path_join "aerialtiny" [folder] = None ∧
                 e = OSError_listdir (path_join "aerialtiny" [folder])) ∧
    (dirs_present world_unreadable "aerialtiny" = true →
       extractor_ok demo_sess_run →
       ∃ path, files world_unreadable !! path = None ∧ e = OSError_open path).
Proof.
  split; [reflexivity|].
  apply (fail_fast demo_sess_run demo_randbelow default_flags world_unreadable).
  reflexivity.
Defined.

Lemma empty_category_witness :
  let run := create_bottleneck_features demo_sess_run demo_randbelow
               default_flags world_3_5 in
  (∃ listed, list_labeled_images "aerialtiny" world_3_5 = (Ok listed, world_3_5) ∧
             (1 ∉ listed.*2) ∧ length listed = 8) ∧
  (0 < 8 →
     ∃ art fed,
       length (features art) = 8 ∧
       length (labels art) = 8 ∧
       (1 ∉ labels art) ∧
       run = h5_write (output_path default_flags) art (add_feeds fed world_3_5) ∧
       (run.1 = Ok () → h5_files run.2 !! output_path default_flags = Some art)) ∧
  (8 = 0 → run = (Raise ValueError_unpack, world_3_5)).
Proof.
  apply (empty_category demo_sess_run demo_randbelow default_flags world_3_5
           1 "Cultivated");
    [reflexivity | reflexivity | reflexivity | apply demo_extractor_ok].
Defined.

(** C6, as it is stated: the category directory of Barren is there and
    empty, and the job raises, as the other five are empty too. *)
Lemma empty_category_can_raise :
  folders !! 0 = Some "Barren" ∧
  dirs world_all_empty !! path_join "aerialtiny" ["Barren"] = Some [] ∧
  let run := create_bottleneck_features demo_sess_run demo_randbelow
               default_flags world_all_empty in
  run.1 = Raise ValueError_unpack ∧
  h5_files run.2 !! output_path default_flags = None.
Proof. by vm_compute. Qed.

Lemma two_categories_witness :
  let run := create_bottleneck_features demo_sess_run demo_randbelow
               (with_batch_size 4 default_flags) world_3_5 in
  ∃ art fed,
    length (features art) = 8 ∧
    Forall (λ row, length row = 2048) (features art) ∧
    length (labels art) = 8 ∧
    (∀ l, l ∈ labels art ↔ l = 0 ∨ l = 3) ∧
    length (filter (λ l, l = 0) (labels art)) = 3 ∧
    length (filter (λ l, l = 3) (labels art)) = 5 ∧
    run = h5_write (output_path default_flags) art (add_feeds fed world_3_5) ∧
    (run.1 = Ok () → h5_files run.2 !! output_path default_flags = Some art).
Proof.
  apply (two_categories demo_sess_run demo_randbelow default_flags world_3_5
           0 3 "Barren" "Forest");
    [reflexivity | reflexivity | lia | reflexivity | apply demo_extractor_ok
    | reflexivity | reflexivity |].
  intros c Hc Hbarren Hforest. unfold folders, label_map in Hc.
  cbn [fmap list_fmap fst] in Hc. rewrite !elem_of_cons, elem_of_nil in Hc.
  destruct Hc as [->|[->|[->|[->|[->|[->|[]]]]]]];
    first [reflexivity | contradiction].
Defined.

Lemma rows_aligned_witness :
  let run := create_bottleneck_features demo_sess_run demo_randbelow
               default_flags world_3_5 in
  ∃ listed art,
    list_labeled_images "aerialtiny" world_3_5 = (Ok listed, world_3_5) ∧
    let entries := shuffle demo_randbelow listed in
    entries ≡ₚ listed ∧
    h5_files run.2 !! output_path default_flags = Some art ∧
    length (features art) = length entries ∧
    length (labels art) = length entries ∧
    ∀ i path label, entries !! i = Some (path, label) →
      labels art !! i = Some label ∧
      (∃ data, files world_3_5 !! path = Some data ∧
               features art !! i = Some (demo_features data)) ∧
      (∃ folder image,
         folders !! label = Some folder ∧
         image ∈ category_images world_3_5 "aerialtiny" folder ∧
         path = path_join "aerialtiny" [folder; image]).
Proof.
  apply (rows_aligned demo_sess_run demo_randbelow demo_features default_flags
           world_3_5); [apply demo_extractor_pointwise | by vm_compute].
Defined.

(** C7, as it is stated: an input directory that holds two category
    directories, with 3 and 5 images, and nothing else makes the job
    raise at the listing of the first category directory that is not
    there, and no file is written. *)
Lemma two_dirs_only_raises :
  dirs world_two_dirs
    = list_to_map [("aerialtiny/Barren", barren3); ("aerialtiny/Forest", forest5)] ∧
  length barren3 = 3 ∧ length forest5 = 5 ∧
  let run := create_bottleneck_features demo_sess_run demo_randbelow
               (with_batch_size 4 default_flags) world_two_dirs in
  run = (Raise (OSError_listdir "aerialtiny/Cultivated"), world_two_dirs) ∧
  ¬ (run.1 = Ok () ∧
     ∃ art, h5_files run.2 !! output_path default_flags = Some art ∧
            length (features art) = 8 ∧ length (labels art) = 8).
Proof.
  split; [reflexivity|]. split; [reflexivity|]. split; [reflexivity|].
  split; [by vm_compute|]. by intros [? _].
Qed.

Lemma label_is_parent_index_witness :
  label_map = [("Barren", 0); ("Cultivated", 1); ("Developed", 2);
               ("Forest", 3); ("Herbaceous", 4); ("Shrub", 5)] ∧
  (∀ name k, dict_get label_map name = Ok k ↔ folders !! k = Some name) ∧
  ∃ folder image images,
    folders !! 3 = Some folder ∧
    dirs world_3_5 !! path_join "aerialtiny" [folder] = Some images ∧
    image ∈ images ∧
    "aerialtiny/Forest/f2.png" = path_join "aerialtiny" [folder; image] ∧
    (is_file_name image = true →
       parent_name "aerialtiny/Forest/f2.png" = folder ∧
       basename "aerialtiny/Forest/f2.png" = image).
Proof.
  apply (label_is_parent_index "aerialtiny" world_3_5 world_3_5
           (expected_entries world_3_5 "aerialtiny")
           "aerialtiny/Forest/f2.png" 3).
  - reflexivity.
  - apply (bool_decide_unpack _). vm_compute. exact I.
Defined.

(** * Further properties of the script *)

(** ** get_batch at its bounds *)

Section batch_bounds.
Context {A : Type}.
Implicit Types (l : list A) (s n k : nat).


Lemma batch_count_spec l s :
  0 < s →
  batch_count l s = length l `div` s + (if decide (length l `mod` s = 0) then 0 else 1).
Proof.
  intros Hs. unfold batch_count.
  pose proof (Nat.div_mod (length l) s ltac:(lia)) as Hdm.
  pose proof (Nat.mod_upper_bound (length l) s ltac:(lia)) as Hm.
  set (q := length l `div` s) in *. set (r := length l `mod` s) in *.
  case_decide as Hr.
  - replace (length l + s - 1) with (q * s + (s - 1)) by lia.
    rewrite Nat.div_add_l, (Nat.div_small (s - 1)) by lia. lia.
  - replace (length l + s - 1) with ((q + 1) * s + (r - 1)) by lia.
    rewrite Nat.div_add_l, (Nat.div_small (r - 1)) by lia. lia.
Qed.

(** The sizes of the chunks a list is cut into. *)
Lemma chunk_at_length l s k :
  0 < s → k < batch_count l s →
  length (chunk_at l s k)
  = if decide (S k < batch_count l s) then s
    else if decide (length l `mod` s = 0) then s else length l `mod` s.
Proof.
  intros Hs Hk. rewrite chunk_at_take_drop, chunk_length.
  rewrite batch_count_spec in * by done.
  pose proof (Nat.div_mod (length l) s ltac:(lia)) as Hdm.
  pose proof (Nat.mod_upper_bound (length l) s ltac:(lia)) as Hm.
  set (q := length l `div` s) in *. set (r := length l `mod` s) in *.
  repeat case_decide; nia.
Qed.

Lemma chunk_at_bounds l s k :
  0 < s → k < batch_count l s → 0 < length (chunk_at l s k) ≤ s.
Proof.
  intros Hs Hk. rewrite chunk_at_length by done.
  pose proof (Nat.mod_upper_bound (length l) s ltac:(lia)).
  repeat case_decide; lia.
Qed.
End batch_bounds.


(** ** load_images *)

Lemma find_first {A} (f : A → bool) (l : list A) (x : A) :
  find f l = Some x →
  ∃ i, l !! i = Some x ∧ f x = true ∧
       ∀ j y, j < i → l !! j = Some y → f y = false.
Proof.
  induction l as [|a l IH]; [done|]. cbn [find].
  destruct (f a) eqn:Ha.
  - intros [= ->]. exists 0. repeat split; [done|]. intros j y ?. lia.
  - intros (i & Hi & Hx & Hbefore)%IH. exists (S i). repeat split; [done..|].
    intros [|j] y Hj Hy; simplify_eq/=; [done|].
    apply (Hbefore j); [lia | done].
Qed.

Lemma read_all_lookup {F} (w : world F) (paths : list string) i path data :
  paths !! i = Some path → files w !! path = Some data →
  read_all w paths !! i = Some data.
Proof.
  intros Hi Hdata. unfold read_all. rewrite list_lookup_fmap, Hi. simpl.
  by rewrite Hdata.
Qed.

(** X3: load_images leaves the world as it is.  When every file of the
    batch can be read it returns their bytes, one item per path and in
    the order of the paths; otherwise it raises the error of opening
    the first path that cannot be read, and returns nothing of what it
    read before. *)
Theorem load_images_in_order {F} (w : world F) (batch : list string) :
  (load_images batch w).2 = w ∧
  ((∃ images,
      (load_images batch w).1 = Ok images ∧
      length images = length batch ∧
      ∀ i path, batch !! i = Some path →
        ∃ data, files w !! path = Some data ∧ images !! i = Some data) ∨
   (∃ i bad,
      (load_images batch w).1 = Raise (OSError_open bad) ∧
      batch !! i = Some bad ∧ files w !! bad = None ∧
      ∀ j path, j < i → batch !! j = Some path → is_Some (files w !! path))).
Proof.
  rewrite load_images_spec.
  destruct (first_unreadable w batch) as [bad|] eqn:Hfirst.
  - split; [done|]. right.
    apply find_first in Hfirst as (i & Hi & Hbad & Hbefore).
    exists i, bad. split; [done|]. split; [done|].
    split; [by apply bool_decide_eq_true_1 in Hbad|].
    intros j path Hj Hpath. specialize (Hbefore j path Hj Hpath).
    apply bool_decide_eq_false_1 in Hbefore.
    by destruct (files w !! path).
  - split; [done|]. left. exists (read_all w batch). split; [done|].
    split; [unfold read_all; by rewrite length_fmap|].
    intros i path Hi. apply first_unreadable_None in Hfirst.
    unfold all_readable in Hfirst. rewrite Forall_lookup in Hfirst.
    destruct (Hfirst i path Hi) as [data Hdata].
    exists data. split; [done|]. by eapply read_all_lookup.
Qed.

(** ** The file of a run without error *)

(** X7: in the file a run without error writes, whatever the
    featurizer returned, every row of the features has 2048 elements and
    there is one label per image found; such a run means that the input
    was valid, the six category directories there and every listed file
    readable, with at least one image. *)
Theorem success_means_valid {F}
    (sess_run : list (list byte) → option (list (list F)))
    (randbelow : nat → nat) (FLAGS : flags) (w : world F) :
  let run := create_bottleneck_features sess_run randbelow FLAGS w in
  run.1 = Ok () →
  valid_input w (input_data_dir FLAGS) = true ∧
  0 < total_image_count w (input_data_dir FLAGS) ∧
  ∃ art, h5_files run.2 !! output_path FLAGS = Some art ∧
         Forall (λ row, length row = 2048) (features art) ∧
         length (labels art) = total_image_count w (input_data_dir FLAGS).
Proof.
  intros run Hok.
  destruct (create_Ok_valid sess_run randbelow FLAGS w Hok) as [Hvalid Hpos].
  destruct (create_Ok_inv sess_run randbelow FLAGS w Hok)
    as (_ & _ & _ & rows & Hrows & Hart).
  split; [done|]. split; [done|].
  eexists. split; [exact Hart|]. cbn [features labels]. split; [done|].
  by rewrite length_fmap, shuffle_length, expected_length.
Qed.

(** X8: in the file a run without error writes, each of the six
    labels occurs as often as its category directory has files, and no
    other label occurs. *)
Theorem label_histogram {F}
    (sess_run : list (list byte) → option (list (list F)))
    (randbelow : nat → nat) (FLAGS : flags) (w : world F) :
  let run := create_bottleneck_features sess_run randbelow FLAGS w in
  run.1 = Ok () →
  ∃ art, h5_files run.2 !! output_path FLAGS = Some art ∧
    (∀ k folder, folders !! k = Some folder →
       length (filter (λ l, l = k) (labels art))
       = length (category_images w (input_data_dir FLAGS) folder)) ∧
    (∀ l, l ∈ labels art → l < 6).
Proof.
  intros run Hok.
  destruct (create_Ok_inv sess_run randbelow FLAGS w Hok)
    as (_ & _ & _ & rows & _ & Hart).
  eexists. split; [exact Hart|].
  cbn [features labels]. split.
  - intros k folder Hk.
    rewrite (shuffle_Permutation randbelow
               (expected_entries w (input_data_dir FLAGS))).
    by apply label_count.
  - intros l Hl.
    rewrite (shuffle_Permutation randbelow
               (expected_entries w (input_data_dir FLAGS))) in Hl.
    apply label_in_vocabulary in Hl as [folder Hl%lookup_lt_Some]. done.
Qed.

(** ** The order of the rows and the batches fed to the session *)

Lemma zip_fmap_same {A B C} (f : A → B) (g : A → C) (l : list A) :
  zip (f <$> l) (g <$> l) = (λ x, (f x, g x)) <$> l.
Proof. induction l as [|x l IH]; [done|]. simpl. f_equal. exact IH. Qed.

Lemma concat_read_all {F} (w : world F) (batches : list (list string)) :
  concat (read_all w <$> batches) = read_all w (concat batches).
Proof.
  induction batches as [|paths batches IH]; [done|].
  rewrite fmap_cons. cbn [concat]. rewrite IH. unfold read_all.
  by rewrite fmap_app.
Qed.

(** X9: two runs over the same input that differ in the draws of the
    random generator and both end without error write the same rows,
    each feature vector with its label, in a different order. *)
Theorem rows_up_to_order {F}
    (sess_run : list (list byte) → option (list (list F)))
    (randbelow1 randbelow2 : nat → nat) (φ : list byte → list F)
    (FLAGS : flags) (w : world F) :
  extractor_pointwise sess_run φ →
  let run1 := create_bottleneck_features sess_run randbelow1 FLAGS w in
  let run2 := create_bottleneck_features sess_run randbelow2 FLAGS w in
  run1.1 = Ok () → run2.1 = Ok () →
  ∃ art1 art2,
    h5_files run1.2 !! output_path FLAGS = Some art1 ∧
    h5_files run2.2 !! output_path FLAGS = Some art2 ∧
    zip (features art1) (labels art1) ≡ₚ zip (features art2) (labels art2).
Proof.
  intros Hpoint run1 run2 Hok1 Hok2.
  destruct (create_Ok_valid sess_run randbelow1 FLAGS w Hok1) as [Hvalid Hpos].
  pose proof (extractor_pointwise_ok sess_run φ Hpoint) as Hok.
  destruct (create_ok sess_run randbelow1 FLAGS w Hvalid Hok Hpos)
    as (batches1 & _ & Hcat1 & Hrun1).
  destruct (create_ok sess_run randbelow2 FLAGS w Hvalid Hok Hpos)
    as (batches2 & _ & Hcat2 & Hrun2).
  unfold run1, run2 in *. rewrite Hrun1 in Hok1 |- *. rewrite Hrun2 in Hok2 |- *.
  eexists _, _.
  split; [by apply h5_write_Ok|]. split; [by apply h5_write_Ok|].
  cbn [features labels].
  rewrite !(loop_rows_pointwise sess_run w φ) by done.
  rewrite Hcat1, Hcat2. unfold read_all.
  rewrite <- !list_fmap_compose, !zip_fmap_same.
  by rewrite !shuffle_Permutation.
Qed.

(** X10: on a valid input the session is fed every image exactly once,
    in the order of the shuffled list, in batches of 64 images with a
    last batch of what is left: the batches fed, one after the other,
    are the bytes of the files at the shuffled paths. *)
Theorem feeds_cover_images {F}
    (sess_run : list (list byte) → option (list (list F)))
    (randbelow : nat → nat) (FLAGS : flags) (w : world F) :
  valid_input w (input_data_dir FLAGS) = true →
  extractor_ok sess_run →
  0 < total_image_count w (input_data_dir FLAGS) →
  let N := total_image_count w (input_data_dir FLAGS) in
  let run := create_bottleneck_features sess_run randbelow FLAGS w in
  let entries := shuffle randbelow (expected_entries w (input_data_dir FLAGS)) in
  ∃ fed,
    sess_feeds run.2 = sess_feeds w ++ fed ∧
    concat fed = read_all w entries.*1 ∧
    length fed = N `div` 64 + (if decide (N `mod` 64 = 0) then 0 else 1) ∧
    (∀ k imgs, fed !! k = Some imgs →
       0 < length imgs ≤ 64 ∧ (S k < length fed → length imgs = 64)).
Proof.
  intros Hvalid Hok Hpos N run entries.
  destruct (create_ok sess_run randbelow FLAGS w Hvalid Hok Hpos)
    as (batches & Hget & Hcat & Hrun).
  fold entries in Hget, Hcat.
  assert (batches = chunk_at entries.*1 64 <$> seq 0 (batch_count entries.*1 64))
    as ->.
  { rewrite get_batch_pos in Hget by done. by inversion Hget. }
  assert (Hlen : length entries.*1 = N).
  { unfold entries, N. by rewrite length_fmap, shuffle_length, expected_length. }
  exists (read_all w <$>
            (chunk_at entries.*1 64 <$> seq 0 (batch_count entries.*1 64))).
  unfold run. rewrite Hrun, h5_write_feeds. split; [done|].
  split; [by rewrite concat_read_all, Hcat|].
  rewrite !length_fmap, length_seq.
  split; [rewrite batch_count_spec, Hlen by lia; done|].
  intros k imgs Himgs. rewrite list_lookup_fmap in Himgs.
  apply fmap_Some in Himgs as (paths & Hpaths & ->).
  pose proof Hpaths as [Hk _]%lookup_chunks.
  rewrite list_lookup_fmap in Hpaths.
  apply fmap_Some in Hpaths as (k' & [-> _]%lookup_seq & ->).
  unfold read_all. rewrite length_fmap. simpl.
  split; [apply chunk_at_bounds; [lia | done]|].
  intros Hnext. rewrite chunk_at_length by (lia || done).
  by rewrite decide_True.
Qed.

(** ** No file is listed twice *)

Lemma path_join_inj img_dir folder folder' image image' :
  is_file_name folder = true → is_file_name folder' = true →
  is_file_name image = true → is_file_name image' = true →
  path_join img_dir [folder; image] = path_join img_dir [folder'; image'] →
  folder = folder' ∧ image = image'.
Proof.
  intros Hf Hf' Hi Hi' Heq.
  destruct (parent_name_join img_dir folder image Hf Hi) as [Hbase Hparent].
  destruct (parent_name_join img_dir folder' image' Hf' Hi') as [Hbase' Hparent'].
  rewrite Heq in Hbase, Hparent. split; congruence.
Qed.

Lemma category_paths_NoDup {F} (w : world F) img_dir (fs : list string) :
  NoDup fs → fs ⊆ folders →
  (∀ folder, folder ∈ fs →
     NoDup (category_images w img_dir folder) ∧
     Forall (λ image, is_file_name image = true)
       (category_images w img_dir folder)) →
  NoDup (concat ((λ folder, (λ image, path_join img_dir [folder; image])
                   <$> category_images w img_dir folder) <$> fs)).
Proof.
  intros Hnd. induction Hnd as [|folder fs Hnotin Hnd IH]; intros Hsub Hnames.
  { constructor. }
  rewrite fmap_cons. cbn [concat].
  assert (Hfolder : is_file_name folder = true)
    by (apply folders_are_names, Hsub; left).
  destruct (Hnames folder) as [Hnodup Hfiles]; [left|].
  rewrite Forall_forall in Hfiles.
  apply NoDup_app. split; [|split].
  - apply NoDup_fmap_2_strong; [|done].
    intros image image' Hin Hin' Heq.
    by apply (path_join_inj img_dir folder folder image image'); auto.
  - intros path (image & -> & Hin)%list_elem_of_fmap.
    rewrite list_elem_of_In, in_concat.
    intros (group & Hgroup & Hpath).
    apply list_elem_of_In, list_elem_of_fmap in Hgroup as (folder' & -> & Hin').
    apply list_elem_of_In, list_elem_of_fmap in Hpath as (image' & Heq & Himage').
    destruct (Hnames folder') as [_ Hfiles']; [by right|].
    rewrite Forall_forall in Hfiles'.
    apply path_join_inj in Heq as [-> _]; auto.
    apply folders_are_names, Hsub. by right.
  - apply IH; [intros f ?; apply Hsub; by right|].
    intros f ?. apply Hnames. by right.
Qed.

(** X13: when no directory listing names a file twice, and the names
    are file names, without a separator, no path is listed twice: each
    file of the six category directories is in the list once, and so is
    featurized once. *)
Theorem listed_paths_distinct {F} (randbelow : nat → nat) (img_dir : string)
    (w w' : world F) (listed : list (string * nat)) :
  list_labeled_images img_dir w = (Ok listed, w') →
  (∀ folder, folder ∈ folders →
     NoDup (category_images w img_dir folder) ∧
     Forall (λ image, is_file_name image = true)
       (category_images w img_dir folder)) →
  NoDup listed.*1 ∧ NoDup (shuffle randbelow listed).*1.
Proof.
  intros Hlist Hnames. rewrite list_labeled_images_spec in Hlist.
  destruct (first_missing w img_dir); simplify_eq.
  assert (Hnodup : NoDup (expected_entries w' img_dir).*1).
  { unfold expected_entries. rewrite expected_paths_gen.
    apply category_paths_NoDup; [apply folders_NoDup | done | done]. }
  split; [done|]. by rewrite shuffle_Permutation.
Qed.

(** ** The number of rows is not checked *)

Section row_count.
Context {F : Type}.
Variable sess_run : list (list byte) → option (list (list F)).
Variable randbelow : nat → nat.
Implicit Types (w : world F) (FLAGS : flags).

Lemma featurize_loop_any_rows batches :
  extractor_rows_ok sess_run → ∀ acc w,
  first_unreadable w (concat batches) = None →
  for_ batches (featurize_batch sess_run) acc w
  = (Ok (acc ++ concat ((λ paths, default [] (sess_run (read_all w paths)))
                          <$> batches)),
     add_feeds (read_all w <$> batches) w).
Proof.
  intros Hok. induction batches as [|paths batches IH]; intros acc w Hread.
  - simpl. by rewrite ret_eq, app_nil_r, add_feeds_nil.
  - cbn [concat] in Hread. unfold first_unreadable in Hread.
    rewrite find_app_or in Hread. fold (first_unreadable w paths) in Hread.
    rewrite for_cons, featurize_batch_eq.
    destruct (first_unreadable w paths); [done|]. cbn zeta.
    destruct (Hok (read_all w paths)) as (rows & Hrun & Hrows).
    rewrite Hrun, np_reshape_rows_id by done.
    rewrite (IH (acc ++ rows) (add_feeds [read_all w paths] w)) by done.
    rewrite add_feeds_add_feeds, !fmap_cons, Hrun. cbn [concat default from_option id].
    by rewrite <- app_assoc.
Qed.
End row_count.

(** X14: the job does not compare the number of rows the session
    returns with the number of images it was fed: on a valid input, with
    a featurizer that returns 2048-vectors but any number of them, the
    job raises nothing before the write and hands to it the rows
    returned for the batches, one after the other, beside one label per
    image; these are the datasets of the file when the write raises
    nothing, so that the two can differ in length. *)
Theorem row_count_unchecked {F}
    (sess_run : list (list byte) → option (list (list F)))
    (randbelow : nat → nat) (FLAGS : flags) (w : world F) :
  valid_input w (input_data_dir FLAGS) = true →
  extractor_rows_ok sess_run →
  0 < total_image_count w (input_data_dir FLAGS) →
  let run := create_bottleneck_features sess_run randbelow FLAGS w in
  ∃ art fed,
    features art = concat ((λ imgs, default [] (sess_run imgs)) <$> fed) ∧
    length (labels art) = total_image_count w (input_data_dir FLAGS) ∧
    run = h5_write (output_path FLAGS) art (add_feeds fed w) ∧
    sess_feeds run.2 = sess_feeds w ++ fed ∧
    (run.1 = Ok () → h5_files run.2 !! output_path FLAGS = Some art).
Proof.
  intros [Hdirs Hfiles]%andb_true_iff Hok Hpos run. unfold run.
  set (entries := shuffle randbelow (expected_entries w (input_data_dir FLAGS))).
  destruct (get_batch_default_ok entries.*1) as (batches & Hget & Hcat).
  rewrite create_bottleneck_features_eq.
  apply first_missing_None in Hdirs. rewrite Hdirs. fold entries.
  assert (Hne : entries ≠ []).
  { unfold entries. rewrite shuffle_nil. intros Hnil.
    rewrite <- expected_length, Hnil in Hpos. simpl in Hpos. lia. }
  rewrite zip_star_unpack_cons, Hget by done.
  pose proof (shuffled_paths_readable randbelow w _ Hfiles) as Hread.
  apply first_unreadable_None in Hread. fold entries in Hread.
  rewrite <- Hcat in Hread.
  rewrite (featurize_loop_any_rows sess_run batches Hok [] w Hread).
  exists {| features := concat ((λ paths, default [] (sess_run (read_all w paths)))
                                  <$> batches);
            labels := entries.*2 |},
         (read_all w <$> batches).
  cbn [features labels app]. split_and!.
  - by rewrite <- list_fmap_compose.
  - unfold entries. by rewrite length_fmap, shuffle_length, expected_length.
  - done.
  - by rewrite h5_write_feeds.
  - apply h5_write_Ok.
Qed.

(** ** The further properties on the example inputs *)


Lemma success_means_valid_witness :
  let run := create_bottleneck_features demo_sess_run demo_randbelow
               default_flags world_3_5 in
  valid_input world_3_5 "aerialtiny" = true ∧
  0 < total_image_count world_3_5 "aerialtiny" ∧
  ∃ art, h5_files run.2 !! output_path default_flags = Some art ∧
         Forall (λ row, length row = 2048) (features art) ∧
         length (labels art) = total_image_count world_3_5 "aerialtiny".
Proof.
  apply (success_means_valid demo_sess_run demo_randbelow default_flags
           world_3_5).
  by vm_compute.
Defined.

Lemma label_histogram_witness :
  let run := create_bottleneck_features demo_sess_run demo_randbelow
               default_flags world_3_5 in
  ∃ art, h5_files run.2 !! output_path default_flags = Some art ∧
    (∀ k folder, folders !! k = Some folder →
       length (filter (λ l, l = k) (labels art))
       = length (category_images world_3_5 "aerialtiny" folder)) ∧
    (∀ l, l ∈ labels art → l < 6).
Proof.
  apply (label_histogram demo_sess_run demo_randbelow default_flags world_3_5).
  by vm_compute.
Defined.

Lemma rows_up_to_order_witness :
  let run1 := create_bottleneck_features demo_sess_run demo_randbelow
                default_flags world_3_5 in
  let run2 := create_bottleneck_features demo_sess_run zero_randbelow
                default_flags world_3_5 in
  ∃ art1 art2,
    h5_files run1.2 !! output_path default_flags = Some art1 ∧
    h5_files run2.2 !! output_path default_flags = Some art2 ∧
    zip (features art1) (labels art1) ≡ₚ zip (features art2) (labels art2).
Proof.
  apply (rows_up_to_order demo_sess_run demo_randbelow zero_randbelow
           demo_features default_flags world_3_5);
    [apply demo_extractor_pointwise | by vm_compute | by vm_compute].
Defined.

Lemma feeds_cover_images_witness :
  let run := create_bottleneck_features demo_sess_run demo_randbelow
               default_flags world_3_5 in
  let entries := shuffle demo_randbelow (expected_entries world_3_5 "aerialtiny") in
  ∃ fed,
    sess_feeds run.2 = sess_feeds world_3_5 ++ fed ∧
    concat fed = read_all world_3_5 entries.*1 ∧
    length fed = total_image_count world_3_5 "aerialtiny" `div` 64 +
                 (if decide (total_image_count world_3_5 "aerialtiny" `mod` 64 = 0)
                  then 0 else 1) ∧
    (∀ k imgs, fed !! k = Some imgs →
       0 < length imgs ≤ 64 ∧ (S k < length fed → length imgs = 64)).
Proof.
  apply (feeds_cover_images demo_sess_run demo_randbelow default_flags world_3_5);
    [reflexivity | apply demo_extractor_ok | vm_compute; lia].
Defined.

Lemma listed_paths_distinct_witness :
  NoDup (expected_entries world_3_5 "aerialtiny").*1 ∧
  NoDup (shuffle demo_randbelow (expected_entries world_3_5 "aerialtiny")).*1.
Proof.
  apply (listed_paths_distinct demo_randbelow "aerialtiny" world_3_5 world_3_5
           (expected_entries world_3_5 "aerialtiny")); [reflexivity|].
  intros folder Hfolder. unfold folders, label_map in Hfolder.
  cbn [fmap list_fmap fst] in Hfolder.
  rewrite !elem_of_cons, elem_of_nil in Hfolder.
  destruct Hfolder as [->|[->|[->|[->|[->|[->|[]]]]]]];
    (split; apply (bool_decide_unpack _); vm_compute; exact I).
Defined.

Lemma row_count_unchecked_witness :
  let run := create_bottleneck_features lossy_sess_run demo_randbelow
               default_flags world_3_5 in
  (∃ art fed,
     features art = concat ((λ imgs, default [] (lossy_sess_run imgs)) <$> fed) ∧
     length (labels art) = total_image_count world_3_5 "aerialtiny" ∧
     run = h5_write (output_path default_flags) art (add_feeds fed world_3_5) ∧
     sess_feeds run.2 = sess_feeds world_3_5 ++ fed ∧
     (run.1 = Ok () → h5_files run.2 !! output_path default_flags = Some art)) ∧
  run.1 = Ok () ∧
  (λ art, (length (features art), length (labels art)))
    <$> h5_files run.2 !! output_path default_flags = Some (7, 8).
Proof.
  split; [|by vm_compute].
  apply (row_count_unchecked lossy_sess_run demo_randbelow default_flags
           world_3_5); [reflexivity | | vm_compute; lia].
  intros imgs. exists (demo_features <$> tail imgs). split; [reflexivity|].
  apply Forall_fmap, Forall_forall. intros img _. apply length_replicate.
Defined.
